(** * CfdRunnableFoam: the solver-log parser of CfdOF

    A shallow embedding of [CfdRunnableFoam.process_output] and of the
    methods that initialise and reset the object it works on
    ([__init__], [initResiduals], [initMonitors], [get_solver_cmd]),
    followed by the properties of the parser.

    Text is modelled by [string] (code points below 256).  The Python
    builtin [float] is not part of the repository: the development is
    parametric in the type [F] of floats and in [float : string -> option F],
    which answers [None] where Python raises [ValueError]. *)

From Stdlib Require Import String Ascii List ZArith Lia Bool QArith.
Import ListNotations.
Open Scope string_scope.
Open Scope Z_scope.
Open Scope list_scope.

(** ** The string methods the parser calls *)

Module PyStr.

(** Code points below 256 that [str.split()] treats as white space. *)
Definition isspace (c : ascii) : bool :=
  let n := N_of_ascii c in
  ((9 <=? n) && (n <=? 13) || (28 <=? n) && (n <=? 32)
   || (n =? 133) || (n =? 160))%N.

(** [s.split()]: the maximal runs of characters that are not white space. *)
Fixpoint split_ws (s : string) : list string :=
  match s with
  | EmptyString => []
  | String c r =>
      if isspace c then split_ws r
      else match r with
           | EmptyString => [String c EmptyString]
           | String c' _ =>
               if isspace c' then String c EmptyString :: split_ws r
               else match split_ws r with
                    | t :: ts => String c t :: ts
                    | [] => [String c EmptyString]
                    end
           end
  end.

(** [s.split(sep)] for a separator of one character: empty pieces are
    kept and there is always at least one piece. *)
Fixpoint split_sep (sep : ascii) (s : string) : list string :=
  match s with
  | EmptyString => [EmptyString]
  | String c r =>
      if Ascii.eqb c sep then EmptyString :: split_sep sep r
      else match split_sep sep r with
           | t :: ts => String c t :: ts
           | [] => [String c EmptyString]
           end
  end.

(** [s.lstrip(c)]: every leading [c] is removed. *)
Fixpoint lstrip (c : ascii) (s : string) : string :=
  match s with
  | EmptyString => EmptyString
  | String a r => if Ascii.eqb a c then lstrip c r else s
  end.

(** [s.rstrip(c)]: every trailing [c] is removed. *)
Fixpoint rstrip (c : ascii) (s : string) : string :=
  match s with
  | EmptyString => EmptyString
  | String a r =>
      match rstrip c r with
      | EmptyString => if Ascii.eqb a c then EmptyString else String a EmptyString
      | r' => String a r'
      end
  end.

(** [s.replace(c, "")]: every occurrence of [c] is removed. *)
Fixpoint remove (c : ascii) (s : string) : string :=
  match s with
  | EmptyString => EmptyString
  | String a r => if Ascii.eqb a c then remove c r else String a (remove c r)
  end.

(** [s.startswith(p)]. *)
Definition startswith (p s : string) : bool := String.prefix p s.

(** [tok in split], with [==] on strings. *)
Definition mem (tok : string) (split : list string) : bool :=
  existsb (String.eqb tok) split.

End PyStr.
Import PyStr.

(** ** An instance of [float] to evaluate the parser with

    [dec_float] reads the literals [digits] and [digits.digits] and gives
    their value as a fraction; Python's [float] accepts these literals
    (and more) and gives the nearest double. *)

Definition digit (c : ascii) : option Z :=
  let n := Z.of_N (N_of_ascii c) in
  if (48 <=? n) && (n <=? 57) then Some (n - 48) else None.

(** Reads a non-empty run of digits: the number read so far is [acc]
    and [k] digits have been read. *)
Fixpoint digits (s : string) (acc : Z) (k : nat) : option (Z * nat) :=
  match s with
  | EmptyString => match k with O => None | _ => Some (acc, k) end
  | String c r =>
      match digit c with
      | Some d => digits r (10 * acc + d) (S k)
      | None => None
      end
  end.

Definition dec_float (s : string) : option Q :=
  match split_sep "." s with
  | [i] =>
      match digits i 0 0 with
      | Some (n, _) => Some (inject_Z n)
      | None => None
      end
  | [i; f] =>
      match digits i 0 0, digits f 0 0 with
      | Some (n, _), Some (m, k) =>
          Some (Qmake (n * 10 ^ Z.of_nat k + m) (Pos.pow 10 (Pos.of_nat k)))
      | _, _ => None
      end
  | _ => None
  end.

(** ** Logs to evaluate the parser on *)

Definition nl : string := String "010" EmptyString.

(** The chunk made of the given lines, [nl.join(lines)]. *)
Definition chunk (lines : list string) : string := String.concat nl lines.

Definition Ux_050 : string :=
  "smoothSolver:  Solving for Ux, Initial residual = 0.5, Final residual = 0.01, No Iterations 2".

Definition Ux_025 : string :=
  "smoothSolver:  Solving for Ux, Initial residual = 0.25, Final residual = 0.01, No Iterations 2".

Definition p_and_p_rgh_050 : string :=
  "DICPCG:  Solving for p, p_rgh, residual = 0.5, Final residual = 0.01".

Definition Residual_coupled : string :=
  "GMRES iteration: 0   Residual: 0.1 (0.2 0.3 0.4) 0.5".

Definition Pressure_forces : string := "    Pressure : (1.5 2.5 3.5)".

Definition Cl_030 : string := "    Cl    = 0.3".

Definition Cd_not_a_number : string := "    Cd    = abc".

Definition p_rgh_050 : string :=
  "DICPCG:  Solving for p_rgh, Initial residual = 0.5, Final residual = 0.01, No Iterations 2".

Definition Viscous_forces : string := "    Viscous  : (0.5 0.25 0.125)".

Definition k_050 : string :=
  "smoothSolver:  Solving for k, Initial residual = 0.5, Final residual = 0.01, No Iterations 2".

(** ** The object *)

(** The exceptions the parser can raise. *)
Inductive error : Set :=
| IndexError      (* [split[i]] with [i] out of range *)
| ValueError      (* [float] of a token that is not a number *)
| AttributeError. (* [updateResiduals] looked up on [None] *)

Inductive result (A : Type) : Type :=
| Ok (a : A)
| Raise (e : error).
Arguments Ok {A} a.
Arguments Raise {A} e.

(** The list attributes of a [CfdRunnableFoam], by name. *)
Inductive attr : Set :=
| UxResiduals | UyResiduals | UzResiduals | pResiduals | rhoResiduals
| EResiduals | kResiduals | epsilonResiduals | omegaResiduals
| nuTildaResiduals | gammaIntResiduals | ReThetatResiduals
| pressureXResiduals | pressureYResiduals | pressureZResiduals
| viscousXResiduals | viscousYResiduals | viscousZResiduals
| cdResiduals | clResiduals.

Definition attr_eqb (a b : attr) : bool :=
  match a, b with
  | UxResiduals, UxResiduals | UyResiduals, UyResiduals
  | UzResiduals, UzResiduals | pResiduals, pResiduals
  | rhoResiduals, rhoResiduals | EResiduals, EResiduals
  | kResiduals, kResiduals | epsilonResiduals, epsilonResiduals
  | omegaResiduals, omegaResiduals | nuTildaResiduals, nuTildaResiduals
  | gammaIntResiduals, gammaIntResiduals
  | ReThetatResiduals, ReThetatResiduals
  | pressureXResiduals, pressureXResiduals
  | pressureYResiduals, pressureYResiduals
  | pressureZResiduals, pressureZResiduals
  | viscousXResiduals, viscousXResiduals
  | viscousYResiduals, viscousYResiduals
  | viscousZResiduals, viscousZResiduals
  | cdResiduals, cdResiduals | clResiduals, clResiduals => true
  | _, _ => false
  end.

(** The attributes that [initResiduals] resets; [initMonitors] resets
    the others. *)
Definition is_residual (a : attr) : bool :=
  match a with
  | UxResiduals | UyResiduals | UzResiduals | pResiduals | rhoResiduals
  | EResiduals | kResiduals | epsilonResiduals | omegaResiduals
  | nuTildaResiduals | gammaIntResiduals | ReThetatResiduals => true
  | _ => false
  end.

(** The plot objects the parser reports to. *)
Inductive plotter : Set := ResidualPlot | ForcesPlot | ForceCoeffsPlot.

Section Parser.

Variable F : Type.
Variable float : string -> option F.

Record CfdRunnableFoam : Type := mkFoam {
  series : attr -> list F;
  niter : Z;
  residual_plotter : option plotter;
  forces_plotter : option plotter;
  force_coeffs_plotter : option plotter;
  forces_plot : bool;
  force_coeffs_plot : bool
}.

Definition set_series (f : attr -> list F) (s : CfdRunnableFoam) :=
  mkFoam f (niter s) (residual_plotter s) (forces_plotter s)
         (force_coeffs_plotter s) (forces_plot s) (force_coeffs_plot s).

Definition set_niter (n : Z) (s : CfdRunnableFoam) :=
  mkFoam (series s) n (residual_plotter s) (forces_plotter s)
         (force_coeffs_plotter s) (forces_plot s) (force_coeffs_plot s).

(** [len(self.a)] *)
Definition len (a : attr) (s : CfdRunnableFoam) : Z :=
  Z.of_nat (length (series s a)).

(** [self.a.append(v)] *)
Definition push (a : attr) (v : F) (s : CfdRunnableFoam) : CfdRunnableFoam :=
  set_series (fun b => if attr_eqb b a then series s b ++ [v] else series s b) s.

Definition initResiduals (s : CfdRunnableFoam) : CfdRunnableFoam :=
  set_niter 0 (set_series (fun a => if is_residual a then [] else series s a) s).

Definition initMonitors (s : CfdRunnableFoam) : CfdRunnableFoam :=
  set_series (fun a => if is_residual a then series s a else []) s.

(** [__init__], from the types of the function objects of the active
    analysis ([None] when there is no such group). *)
Definition init (function_objs : option (list string)) : CfdRunnableFoam :=
  let types := match function_objs with Some l => l | None => [] end in
  initMonitors (initResiduals
    (mkFoam (fun _ => []) 0 None None None
            (existsb (String.eqb "Force") types)
            (existsb (String.eqb "ForceCoefficients") types))).

(** [get_solver_cmd]: its effect on the object (the command it returns
    is made by [CfdTools]). *)
Definition get_solver_cmd (s : CfdRunnableFoam) : CfdRunnableFoam :=
  let s1 := initMonitors (initResiduals s) in
  mkFoam (series s1) (niter s1)
         (Some ResidualPlot)
         (if forces_plot s1 then Some ForcesPlot else forces_plotter s1)
         (if force_coeffs_plot s1 then Some ForceCoeffsPlot
          else force_coeffs_plotter s1)
         (forces_plot s1) (force_coeffs_plot s1).

(** ** Statements

    A statement runs on the object and either falls through or raises;
    in both cases the object is left as the statement made it. *)

Definition cmd : Type := CfdRunnableFoam -> CfdRunnableFoam * option error.

Definition seq (c1 c2 : cmd) : cmd :=
  fun s => match c1 s with
           | (s1, None) => c2 s1
           | (s1, Some e) => (s1, Some e)
           end.

Definition If (b : CfdRunnableFoam -> bool) (c : cmd) : cmd :=
  fun s => if b s then c s else (s, None).

(** [self.niter += 1] *)
Definition incr_niter : cmd := fun s => (set_niter (niter s + 1) s, None).

(** [self.a.append(e)]: the argument is evaluated first. *)
Definition append (a : attr) (e : result F) : cmd :=
  fun s => match e with
           | Ok v => (push a v s, None)
           | Raise err => (s, Some err)
           end.

(** [float(f(split[i]))] *)
Definition float_at (split : list string) (i : nat)
           (f : string -> string) : result F :=
  match nth_error split i with
  | None => Raise IndexError
  | Some t => match float (f t) with
              | Some v => Ok v
              | None => Raise ValueError
              end
  end.

(** [t.split(',')[0]] *)
Definition before_comma (t : string) : string :=
  match split_sep "," t with
  | p :: _ => p
  | [] => EmptyString
  end.

(** [self.niter-1 > len(self.g)] *)
Definition lags (g : attr) (s : CfdRunnableFoam) : bool :=
  niter s - 1 >? len g s.

(** [if tok in split and self.niter-1 > len(self.g): body] *)
Definition when (split : list string) (tok : string) (g : attr)
           (body : cmd) : cmd :=
  If (fun s => mem tok split && lags g s) body.

(** ** One line of the log *)

(** [float(split[7].split(',')[0])] *)
Definition residual_at_7 (split : list string) : result F :=
  float_at split 7 before_comma.

Notation "c1 ;; c2" := (seq c1 c2) (at level 61, right associativity).

(** The body of the loop of [process_output]. *)
Definition process_line (line : string) : cmd :=
  let split := split_ws line in
  (* Only store the first residual per timestep *)
  If (fun _ => startswith "Time = " line) incr_niter ;;
  when split "Ux," UxResiduals (append UxResiduals (residual_at_7 split)) ;;
  when split "Uy," UyResiduals (append UyResiduals (residual_at_7 split)) ;;
  when split "Uz," UzResiduals (append UzResiduals (residual_at_7 split)) ;;
  when split "p," pResiduals (append pResiduals (residual_at_7 split)) ;;
  when split "p_rgh," pResiduals (append pResiduals (residual_at_7 split)) ;;
  when split "h," EResiduals (append EResiduals (residual_at_7 split)) ;;
  (* HiSA coupled residuals *)
  when split "Residual:" rhoResiduals
    (append rhoResiduals (float_at split 4 (fun t => t)) ;;
     append UxResiduals (float_at split 5 (lstrip "(")) ;;
     append UyResiduals (float_at split 6 (fun t => t)) ;;
     append UzResiduals (float_at split 7 (rstrip ")")) ;;
     append EResiduals (float_at split 8 (fun t => t))) ;;
  when split "k," kResiduals (append kResiduals (residual_at_7 split)) ;;
  when split "epsilon," epsilonResiduals
    (append epsilonResiduals (residual_at_7 split)) ;;
  when split "omega," omegaResiduals
    (append omegaResiduals (residual_at_7 split)) ;;
  when split "nuTilda," nuTildaResiduals
    (append nuTildaResiduals (residual_at_7 split)) ;;
  when split "gammaInt," gammaIntResiduals
    (append gammaIntResiduals (residual_at_7 split)) ;;
  when split "ReThetat," ReThetatResiduals
    (append ReThetatResiduals (residual_at_7 split)) ;;
  (* Force monitors *)
  when split "Pressure" pressureXResiduals
    (append pressureXResiduals (float_at split 2 (remove "(")) ;;
     append pressureYResiduals (float_at split 3 (fun t => t)) ;;
     append pressureZResiduals (float_at split 4 (remove ")"))) ;;
  when split "Viscous" viscousXResiduals
    (append viscousXResiduals (float_at split 2 (remove "(")) ;;
     append viscousYResiduals (float_at split 3 (fun t => t)) ;;
     append viscousZResiduals (float_at split 4 (remove ")"))) ;;
  (* Force coefficient monitors *)
  when split "Cd" cdResiduals
    (append cdResiduals (float_at split 2 (fun t => t))) ;;
  when split "Cl" clResiduals
    (append clResiduals (float_at split 2 (fun t => t))).

(** [for line in log_lines: ...] *)
Fixpoint process_lines (log_lines : list string) : cmd :=
  match log_lines with
  | [] => fun s => (s, None)
  | line :: rest => process_line line ;; process_lines rest
  end.

(** ** Reporting to the plots *)

(** A call of [updateResiduals], by the attribute that holds the plot
    it is made on; the argument is the [OrderedDict], as the list of its
    items with the contents the lists have at the call. *)
Inductive event : Type :=
| residual_plotter_update (items : list (string * list F))
| forces_plotter_update (items : list (string * list F))
| force_coeffs_plotter_update (items : list (string * list F)).

Definition residual_items (s : CfdRunnableFoam) : list (string * list F) :=
  [ ("$\rho$", series s rhoResiduals);
    ("$U_x$", series s UxResiduals);
    ("$U_y$", series s UyResiduals);
    ("$U_z$", series s UzResiduals);
    ("$p$", series s pResiduals);
    ("$E$", series s EResiduals);
    ("$k$", series s kResiduals);
    ("$\epsilon$", series s epsilonResiduals);
    ("$\tilde{\nu}$", series s nuTildaResiduals);
    ("$\omega$", series s omegaResiduals);
    ("$\gamma$", series s gammaIntResiduals);
    ("$Re_{\theta}$", series s ReThetatResiduals) ].

Definition forces_items (s : CfdRunnableFoam) : list (string * list F) :=
  [ ("$Pressure_x$", series s pressureXResiduals);
    ("$Pressure_y$", series s pressureYResiduals);
    ("$Pressure_z$", series s pressureZResiduals);
    ("$Viscous_x$", series s viscousXResiduals);
    ("$Viscous_y$", series s viscousYResiduals);
    ("$Viscous_z$", series s viscousZResiduals) ].

Definition force_coeffs_items (s : CfdRunnableFoam) : list (string * list F) :=
  [ ("$C_D$", series s cdResiduals);
    ("$C_L$", series s clResiduals) ].

(** The three calls after the loop: a call on an attribute that holds
    [None] raises [AttributeError]. *)
Definition update_plots (s : CfdRunnableFoam) : list event * option error :=
  match residual_plotter s with
  | None => ([], Some AttributeError)
  | Some _ =>
      match forces_plotter s with
      | None => ([residual_plotter_update (residual_items s)],
                 Some AttributeError)
      | Some _ =>
          match force_coeffs_plotter s with
          | None => ([residual_plotter_update (residual_items s);
                      forces_plotter_update (forces_items s)],
                     Some AttributeError)
          | Some _ => ([residual_plotter_update (residual_items s);
                        forces_plotter_update (forces_items s);
                        force_coeffs_plotter_update (force_coeffs_items s)],
                       None)
          end
      end
  end.

(** [process_output(text)]: the object after the call, the calls made on
    the plots, and the exception that reaches the caller, if any. *)
Definition process_output (text : string) (s : CfdRunnableFoam)
  : CfdRunnableFoam * list event * option error :=
  match process_lines (split_sep "010" text) s with
  | (s1, Some e) => (s1, [], Some e)
  | (s1, None) =>
      if niter s1 >? 1 then
        let (evs, r) := update_plots s1 in (s1, evs, r)
      else (s1, [], None)
  end.

(** A run of calls of [process_output]; a caller that catches an
    exception and goes on calls it on the object the failed call left. *)
Fixpoint process_outputs (texts : list string) (s : CfdRunnableFoam)
  : CfdRunnableFoam :=
  match texts with
  | [] => s
  | text :: rest => process_outputs rest (fst (fst (process_output text s)))
  end.

(** The objects a program can hold: made by [__init__], then used
    through [get_solver_cmd] and [process_output]. *)
Inductive reachable : CfdRunnableFoam -> Prop :=
| reachable_init function_objs : reachable (init function_objs)
| reachable_get_solver_cmd s : reachable s -> reachable (get_solver_cmd s)
| reachable_process_output text s :
    reachable s -> reachable (fst (fst (process_output text s))).

(** ** Vocabulary of the properties *)

(** The tokens that the statements of [process_line] look for. *)
Definition triggers : list string :=
  [ "Ux,"; "Uy,"; "Uz,"; "p,"; "p_rgh,"; "h,"; "Residual:"; "k,";
    "epsilon,"; "omega,"; "nuTilda,"; "gammaInt,"; "ReThetat,";
    "Pressure"; "Viscous"; "Cd"; "Cl" ].

(** No trigger other than [tok] is among the tokens. *)
Definition only (tok : string) (split : list string) : bool :=
  forallb (fun t => String.eqb t tok || negb (mem t split)) triggers.

(** No trigger at all is among the tokens. *)
Definition quiet (split : list string) : bool :=
  forallb (fun t => negb (mem t split)) triggers.

(** None of the triggers that are looked for before ["Cd"]. *)
Definition quiet_before_Cd (split : list string) : bool :=
  forallb (fun t => String.eqb t "Cd" || String.eqb t "Cl"
                    || negb (mem t split)) triggers.

(** A timestep marker that carries no residual. *)
Definition time_line (line : string) : Prop :=
  startswith "Time = " line = true /\ quiet (split_ws line) = true.

(** A well-formed ["Ux,"] line of value [v]: the only trigger is ["Ux,"]
    and the token at position 7 reads [v] before its first comma. *)
Definition Ux_line (v : F) (line : string) : Prop :=
  startswith "Time = " line = false /\
  mem "Ux," (split_ws line) = true /\
  only "Ux," (split_ws line) = true /\
  residual_at_7 (split_ws line) = Ok v.

(** The attribute whose length the guard of an append to [a] reads. *)
Definition guard_of (a : attr) : attr :=
  match a with
  | pressureYResiduals | pressureZResiduals => pressureXResiduals
  | viscousYResiduals | viscousZResiduals => viscousXResiduals
  | _ => a
  end.

(** The attributes that the ["Residual:"] statement appends to under the
    guard of [rhoResiduals], besides their own statement. *)
Definition coupled (a : attr) : bool :=
  match a with
  | UxResiduals | UyResiduals | UzResiduals | EResiduals => true
  | _ => false
  end.

(** No statement can append to [a]: every guard that protects an append
    to [a] fails. *)
Definition blocked (a : attr) (s : CfdRunnableFoam) : Prop :=
  niter s - 1 <= len (guard_of a) s /\
  (coupled a = true -> niter s - 1 <= len rhoResiduals s).

(** What the guards keep true of the lengths. *)
Definition bounded (s : CfdRunnableFoam) : Prop :=
  0 <= niter s /\
  forall a,
    len a s <= len (guard_of a) s /\
    len (guard_of a) s
    <= (if coupled a then len rhoResiduals s else 0) + Z.max (niter s - 1) 0.

(** [c] keeps [P], whether it falls through or raises. *)
Definition preserves (P : CfdRunnableFoam -> Prop) (c : cmd) : Prop :=
  forall s, P s -> P (fst (c s)).

(** The lines of a log in which each timestep marker is followed by one
    line. *)
Fixpoint timesteps (rounds : list (string * string * F)) : list string :=
  match rounds with
  | [] => []
  | (t, u, _) :: rest => t :: u :: timesteps rest
  end.

(** The plots and the flags, as they are in [s]. *)
Definition same_plots (s x : CfdRunnableFoam) : Prop :=
  residual_plotter x = residual_plotter s /\
  forces_plotter x = forces_plotter s /\
  force_coeffs_plotter x = force_coeffs_plotter s /\
  forces_plot x = forces_plot s /\
  force_coeffs_plot x = force_coeffs_plot s.

(** The counter, [a] and the attributes that guard it, as they are in [s]. *)
Definition frozen (a : attr) (s x : CfdRunnableFoam) : Prop :=
  niter x = niter s /\
  series x a = series s a /\
  series x (guard_of a) = series s (guard_of a) /\
  (coupled a = true -> series x rhoResiduals = series s rhoResiduals).

(** The labels of the residual plot, in the order of the source. *)
Definition residual_labels : list string :=
  [ "$\rho$"; "$U_x$"; "$U_y$"; "$U_z$"; "$p$"; "$E$"; "$k$";
    "$\epsilon$"; "$\tilde{\nu}$"; "$\omega$"; "$\gamma$"; "$Re_{\theta}$" ].

(** A timestep marker, then a well-formed "Ux," line with its value. *)
Definition Ux_round (r : string * string * F) : Prop :=
  let '(t, u, v) := r in time_line t /\ Ux_line v u.

(** The series [a] and the counter, as they are in [s]. *)
Definition same_at (a : attr) (s x : CfdRunnableFoam) : Prop :=
  series x a = series s a /\ niter x = niter s.

(** The five series of the coupled format, as they are in [s]. *)
Definition same_coupled (s x : CfdRunnableFoam) : Prop :=
  series x rhoResiduals = series s rhoResiduals /\
  series x UxResiduals = series s UxResiduals /\
  series x UyResiduals = series s UyResiduals /\
  series x UzResiduals = series s UzResiduals /\
  series x EResiduals = series s EResiduals.

(** The exceptions of a decoding expression [float(f(split[i]))]: the
    token is not a number, or the line is too short to have it. *)
Definition decode_failure (e : error) : Prop :=
  e = ValueError \/ e = IndexError.

(** Every exception of [c] is a decode failure. *)
Definition decodes (c : cmd) : Prop :=
  forall s e, snd (c s) = Some e -> decode_failure e.

(** Every series of [s] is a prefix of what it is in [x]. *)
Definition extends (s x : CfdRunnableFoam) : Prop :=
  forall a, exists l, series x a = series s a ++ l.

(** The two coefficient series as in [s], and the counter at [n]. *)
Definition same_coeffs (s : CfdRunnableFoam) (n : Z) (x : CfdRunnableFoam)
  : Prop :=
  series x cdResiduals = series s cdResiduals /\
  series x clResiduals = series s clResiduals /\
  niter x = n.

(** From a state where [P] holds, [c] raises and [P] still holds. *)
Definition raises (P : CfdRunnableFoam -> Prop) (c : cmd) : Prop :=
  forall x, P x -> P (fst (c x)) /\ snd (c x) <> None.

(** The number of timestep markers among the lines. *)
Fixpoint count_markers (lines : list string) : Z :=
  match lines with
  | [] => 0
  | line :: rest =>
      (if startswith "Time = " line then 1 else 0) + count_markers rest
  end.

(** The three calls that follow the loop, in the order of the source. *)
Definition all_updates (s : CfdRunnableFoam) : list event :=
  [ residual_plotter_update (residual_items s);
    forces_plotter_update (forces_items s);
    force_coeffs_plotter_update (force_coeffs_items s) ].

(** The same object, attribute by attribute. *)
Definition same_object (s x : CfdRunnableFoam) : Prop :=
  (forall a, series x a = series s a) /\
  niter x = niter s /\
  same_plots s x.

(** [c] does the same on objects that are the same. *)
Definition respects (c : cmd) : Prop :=
  forall s x, same_object s x ->
    same_object (fst (c s)) (fst (c x)) /\ snd (c x) = snd (c s).

(** The y and z series of the force monitors are never ahead of the
    series before them. *)
Definition ordered (s : CfdRunnableFoam) : Prop :=
  len pressureZResiduals s <= len pressureYResiduals s
  <= len pressureXResiduals s /\
  len viscousZResiduals s <= len viscousYResiduals s
  <= len viscousXResiduals s.

(** The three components of each force have the same number of values. *)
Definition lockstep (s : CfdRunnableFoam) : Prop :=
  len pressureXResiduals s = len pressureYResiduals s /\
  len pressureYResiduals s = len pressureZResiduals s /\
  len viscousXResiduals s = len viscousYResiduals s /\
  len viscousYResiduals s = len viscousZResiduals s.

(** [c] keeps [P] when it falls through. *)
Definition keeps (P : CfdRunnableFoam -> Prop) (c : cmd) : Prop :=
  forall s s', P s -> c s = (s', None) -> P s'.

(** [c] appends at most [k] values to [a]. *)
Definition grows (a : attr) (k : nat) (c : cmd) : Prop :=
  forall s, (length (series (fst (c s)) a) <= length (series s a) + k)%nat.

(** The number of statements of [process_line] that append to [a]. *)
Definition writers (a : attr) : nat :=
  match a with
  | UxResiduals | UyResiduals | UzResiduals | pResiduals | EResiduals => 2
  | _ => 1
  end.

(** The triggers whose value is the token at position 7, each with the
    series it is appended to. *)
Definition residual_triggers : list (string * attr) :=
  [ ("Ux,", UxResiduals); ("Uy,", UyResiduals); ("Uz,", UzResiduals);
    ("p,", pResiduals); ("p_rgh,", pResiduals); ("h,", EResiduals);
    ("k,", kResiduals); ("epsilon,", epsilonResiduals);
    ("omega,", omegaResiduals); ("nuTilda,", nuTildaResiduals);
    ("gammaInt,", gammaIntResiduals); ("ReThetat,", ReThetatResiduals) ].

(** The triggers of the force coefficients, whose value is the token at
    position 2. *)
Definition coefficient_triggers : list (string * attr) :=
  [ ("Cd", cdResiduals); ("Cl", clResiduals) ].

(** [c] never raises [IndexError]. *)
Definition in_range (c : cmd) : Prop :=
  forall s, snd (c s) <> Some IndexError.

(** The three series of a force, as they are in [s], and the counter. *)
Definition same_force (X Y Z : attr) (s x : CfdRunnableFoam) : Prop :=
  series x X = series s X /\ series x Y = series s Y /\
  series x Z = series s Z /\ niter x = niter s.

(** A well-formed line for the trigger [tok]: it is no timestep marker,
    [tok] is its only trigger and the token at position 7 reads [v]
    before its first comma. *)
Definition trigger_line (tok : string) (v : F) (line : string) : Prop :=
  startswith "Time = " line = false /\
  mem tok (split_ws line) = true /\
  only tok (split_ws line) = true /\
  residual_at_7 (split_ws line) = Ok v.

(** The five series of the coupled format have the same number of
    values. *)
Definition coupled_in_step (s : CfdRunnableFoam) : Prop :=
  len UxResiduals s = len rhoResiduals s /\
  len UyResiduals s = len rhoResiduals s /\
  len UzResiduals s = len rhoResiduals s /\
  len EResiduals s = len rhoResiduals s.

(** None of the triggers of the segregated format that write to the
    series of the coupled format. *)
Definition coupled_only (split : list string) : bool :=
  negb (mem "Ux," split) && negb (mem "Uy," split)
  && negb (mem "Uz," split) && negb (mem "h," split).

(** The statements that append one value: each trigger with the series
    it writes to. *)
Definition single_value_triggers : list (string * attr) :=
  residual_triggers ++ coefficient_triggers.

(** The value that the statement for [tok] reads: the token at position
    2 for "Cd" and "Cl", the token at position 7 up to its first comma
    for the others. *)
Definition value_read (tok : string) (split : list string) : result F :=
  if String.eqb tok "Cd" || String.eqb tok "Cl"
  then float_at split 2 (fun t => t)
  else residual_at_7 split.

(** The triggers of the other statements that write to the series [a]
    of the statement for [tok]. *)
Definition other_writers (tok : string) (a : attr) : list string :=
  match a with
  | UxResiduals | UyResiduals | UzResiduals | EResiduals => ["Residual:"]
  | pResiduals => if String.eqb tok "p," then ["p_rgh,"] else ["p,"]
  | _ => []
  end.

(** No other statement that writes to [a] finds its trigger among the
    tokens. *)
Definition sole_writer (tok : string) (a : attr) (split : list string)
  : bool :=
  forallb (fun t => negb (mem t split)) (other_writers tok a).

(** ** The statements *)

Lemma seq_inv (c1 c2 : cmd) s s' :
  (c1 ;; c2) s = (s', None) ->
  exists s1, c1 s = (s1, None) /\ c2 s1 = (s', None).
Proof.
  unfold seq; destruct (c1 s) as [s1 [e|]]; intros H.
  - discriminate.
  - exists s1; auto.
Qed.

Lemma preserves_seq P c1 c2 :
  preserves P c1 -> preserves P c2 -> preserves P (c1 ;; c2).
Proof.
  intros H1 H2 s Hs; unfold seq.
  specialize (H1 s Hs); destruct (c1 s) as [s1 [e|]]; simpl in *; auto.
Qed.

Lemma preserves_If P b c : preserves P c -> preserves P (If b c).
Proof. intros H s Hs; unfold If; destruct (b s); simpl; auto. Qed.

Lemma preserves_append P a e :
  (forall s v, P s -> P (push a v s)) -> preserves P (append a e).
Proof. intros H s Hs; unfold append; destruct e; simpl; auto. Qed.

Lemma preserves_when P split tok g c :
  (forall s, P s -> niter s - 1 > len g s -> P (fst (c s))) ->
  preserves P (when split tok g c).
Proof.
  intros H s Hs; unfold when, If, lags.
  destruct (mem tok split); simpl; auto.
  destruct (Z.gtb_spec (niter s - 1) (len g s)); simpl; auto.
  apply H; auto; lia.
Qed.

Lemma len_push a b v s :
  len a (push b v s) = len a s + (if attr_eqb a b then 1 else 0).
Proof.
  unfold len, push; simpl; destruct (attr_eqb a b).
  - rewrite length_app; simpl; lia.
  - lia.
Qed.

Lemma preserves_incr_niter P :
  (forall s, P s -> P (set_niter (niter s + 1) s)) -> preserves P incr_niter.
Proof. intros H s Hs; apply H; auto. Qed.

Lemma len_nonneg a s : 0 <= len a s.
Proof. unfold len; lia. Qed.

Lemma niter_push a v s : niter (push a v s) = niter s.
Proof. reflexivity. Qed.

Lemma series_push a b v s :
  series (push b v s) a = if attr_eqb a b then series s a ++ [v] else series s a.
Proof. reflexivity. Qed.

(** Splits a statement into its appends. *)
Ltac statements :=
  repeat first [ apply preserves_seq | apply preserves_If
               | apply preserves_append | apply preserves_incr_niter ].

Ltac guarded_statements :=
  repeat first [ apply preserves_seq | apply preserves_when ].

(** Runs the appends of the body of a guarded statement, by cases on
    what each [float] answers. *)
Ltac run_body :=
  unfold seq, append;
  repeat match goal with
         | |- context [residual_at_7 ?sp] => destruct (residual_at_7 sp)
         | |- context [float_at ?sp ?i ?f] => destruct (float_at sp i f)
         end;
  cbn [fst].

Ltac each_attr H :=
  pose proof (H UxResiduals); pose proof (H UyResiduals);
  pose proof (H UzResiduals); pose proof (H pResiduals);
  pose proof (H rhoResiduals); pose proof (H EResiduals);
  pose proof (H kResiduals); pose proof (H epsilonResiduals);
  pose proof (H omegaResiduals); pose proof (H nuTildaResiduals);
  pose proof (H gammaIntResiduals); pose proof (H ReThetatResiduals);
  pose proof (H pressureXResiduals); pose proof (H pressureYResiduals);
  pose proof (H pressureZResiduals); pose proof (H viscousXResiduals);
  pose proof (H viscousYResiduals); pose proof (H viscousZResiduals);
  pose proof (H cdResiduals); pose proof (H clResiduals);
  clear H; cbn [guard_of coupled] in *.

(** ** What a line cannot change *)

Lemma process_line_same_plots s line :
  preserves (same_plots s) (process_line line).
Proof. unfold process_line, when; statements; intros; assumption. Qed.

Lemma process_lines_preserves P lines :
  (forall line, preserves P (process_line line)) ->
  preserves P (process_lines lines).
Proof.
  intros H; induction lines as [|line rest IH]; simpl.
  - intros s Hs; exact Hs.
  - apply preserves_seq; auto.
Qed.

Lemma process_output_preserves P text :
  (forall line, preserves P (process_line line)) ->
  forall s, P s -> P (fst (fst (process_output text s))).
Proof.
  intros H s Hs; unfold process_output.
  pose proof (process_lines_preserves P (split_sep "010" text) H s Hs) as H1.
  destruct (process_lines (split_sep "010" text) s) as [s1 [e|]]; simpl in *; auto.
  destruct (niter s1 >? 1); simpl; auto.
  destruct (update_plots s1); simpl; auto.
Qed.

(** ** The bounds that the guards keep *)

Lemma process_line_bounded line : preserves bounded (process_line line).
Proof.
  unfold process_line.
  apply preserves_seq.
  { apply preserves_If, preserves_incr_niter.
    intros s [H0 H]; split; [simpl; lia|].
    intros a; specialize (H a); unfold len in *; simpl in *; lia. }
  guarded_statements;
    intros s [H0 H] Hg; run_body;
    pose proof (len_nonneg rhoResiduals s);
    (split; [cbn; lia|]);
    try (intros x; apply H);
    each_attr H; intros x; destruct x; cbn [guard_of coupled];
    rewrite ?len_push, ?niter_push; cbn [attr_eqb];
    rewrite ?len_push in Hg; cbn [attr_eqb] in Hg; lia.
Qed.

(** ** What a line cannot append to *)

Lemma process_line_frozen a s line :
  startswith "Time = " line = false ->
  blocked a s ->
  preserves (frozen a s) (process_line line).
Proof.
  intros Hstart Hb; unfold process_line; rewrite Hstart.
  apply preserves_seq; [intros x Hx; exact Hx|].
  guarded_statements;
    intros x Hfro Hg; run_body; try exact Hfro;
    destruct Hfro as (Hn & Ha & Hgd & Hr); destruct Hb as (Hb1 & Hb2);
    destruct a; cbn [guard_of coupled] in *;
    try specialize (Hr eq_refl); try specialize (Hb2 eq_refl);
    first [ exfalso; unfold len in *; rewrite ?Ha, ?Hgd, ?Hr in Hg; lia
          | unfold frozen; cbn [guard_of coupled];
            rewrite ?series_push; cbn [attr_eqb]; rewrite ?niter_push;
            repeat split; auto; intros; discriminate ].
Qed.

Lemma frozen_refl a s : frozen a s s.
Proof. unfold frozen; auto. Qed.

Lemma process_lines_frozen a s lines :
  Forall (fun line => startswith "Time = " line = false) lines ->
  blocked a s ->
  preserves (frozen a s) (process_lines lines).
Proof.
  intros Hl Hb; induction Hl as [|line rest H1 H2 IH]; simpl.
  - intros x Hx; exact Hx.
  - apply preserves_seq; auto using process_line_frozen.
Qed.

(** ** The counter *)

Lemma then_preserves (P : CfdRunnableFoam -> Prop) c1 c2 s :
  P (fst (c1 s)) -> preserves P c2 -> P (fst ((c1 ;; c2) s)).
Proof.
  unfold seq; intros H1 H2; destruct (c1 s) as [s1 [e|]]; simpl in *; auto.
Qed.

(** Only a timestep marker moves the counter, and by one. *)
Lemma process_line_niter line s :
  niter (fst (process_line line s))
  = niter s + (if startswith "Time = " line then 1 else 0).
Proof.
  unfold process_line.
  apply (then_preserves (fun x => niter x = _)).
  - unfold If, incr_niter; destruct (startswith "Time = " line); simpl; lia.
  - unfold when; statements; intros; assumption.
Qed.

Lemma process_lines_niter lines s :
  Forall (fun line => startswith "Time = " line = false) lines ->
  niter (fst (process_lines lines s)) = niter s.
Proof.
  intros Hl; revert s; induction Hl as [|line rest H1 H2 IH]; intros s; simpl.
  - reflexivity.
  - apply (then_preserves (fun x => niter x = niter s)).
    + rewrite process_line_niter, H1; lia.
    + intros x Hx; rewrite IH; exact Hx.
Qed.

(** ** Lines with one trigger *)

Lemma only_absent tok split t :
  only tok split = true -> In t triggers -> t <> tok -> mem t split = false.
Proof.
  unfold only; rewrite forallb_forall; intros H Hin Hne.
  specialize (H t Hin); apply orb_prop in H as [H|H].
  - apply String.eqb_eq in H; contradiction.
  - apply negb_true_iff in H; exact H.
Qed.

Lemma quiet_absent split t :
  quiet split = true -> In t triggers -> mem t split = false.
Proof.
  unfold quiet; rewrite forallb_forall; intros H Hin.
  apply negb_true_iff, H, Hin.
Qed.

(** Rewrites with [mem t split = false] for each trigger [t] that the
    lemma [L] shows absent. *)
Ltac rewrite_absent L :=
  repeat match goal with
         | |- context [mem ?t ?sp] =>
             rewrite (L t) by (first [ cbn; tauto | discriminate ])
         end.

Lemma process_line_time line s :
  time_line line -> process_line line s = (set_niter (niter s + 1) s, None).
Proof.
  intros [Hs Hq]; unfold process_line, seq, when, If.
  rewrite Hs; rewrite_absent (fun t => quiet_absent (split_ws line) t Hq).
  reflexivity.
Qed.

Lemma process_line_Ux v line s :
  Ux_line v line ->
  process_line line s
  = (if lags UxResiduals s then push UxResiduals v s else s, None).
Proof.
  intros (Hs & Hm & Ho & Hv); unfold process_line, seq, when, If.
  rewrite Hs, Hm, Hv.
  rewrite_absent (fun t => only_absent "Ux," (split_ws line) t Ho).
  cbn; destruct (lags UxResiduals s); reflexivity.
Qed.

(** ** The first timesteps after a reset *)

(** C1 (as amended).  After a fresh reset, one line beginning with
    "Time = " followed by one well-formed "Ux," line of value [v] leaves
    the velocity-x series empty and no plot is notified: the guard
    [niter - 1 > len] holds back the residuals of the first timestep.
    With two lines beginning with "Time = " before the "Ux," line, the
    velocity-x series is [[v]] and the residual plot is notified with
    that value under its velocity-x label. *)
Theorem first_Ux_after_reset s0 t1 t2 u v text1 text2 :
  time_line t1 -> time_line t2 -> Ux_line v u ->
  split_sep "010" text1 = [t1; u] ->
  split_sep "010" text2 = [t1; t2; u] ->
  let r1 := process_output text1 (get_solver_cmd s0) in
  let r2 := process_output text2 (get_solver_cmd s0) in
  series (fst (fst r1)) UxResiduals = [] /\
  snd (fst r1) = [] /\ snd r1 = None /\
  series (fst (fst r2)) UxResiduals = [v] /\
  exists items rest,
    snd (fst r2) = residual_plotter_update items :: rest /\
    In ("$U_x$", [v]) items.
Proof.
  intros Ht1 Ht2 Hu H1 H2; unfold process_output; rewrite H1, H2.
  cbn [process_lines]; unfold seq.
  rewrite !(process_line_time t1), !(process_line_time t2) by assumption.
  rewrite !(process_line_Ux v u) by assumption.
  cbn.
  destruct (forces_plot s0), (forces_plotter s0), (force_coeffs_plot s0),
    (force_coeffs_plotter s0); cbn;
    (do 4 (split; [reflexivity|]));
    (eexists; eexists; split; [reflexivity | cbn; tauto]).
Qed.

(** ** The plots *)

Lemma process_output_state text s :
  fst (fst (process_output text s))
  = fst (process_lines (split_sep "010" text) s).
Proof.
  unfold process_output.
  destruct (process_lines (split_sep "010" text) s) as [s1 [e|]]; cbn; auto.
  destruct (niter s1 >? 1); cbn; auto.
  destruct (update_plots s1); reflexivity.
Qed.

Lemma process_output_events text s :
  snd (fst (process_output text s))
  = match process_lines (split_sep "010" text) s with
    | (s1, None) => if niter s1 >? 1 then fst (update_plots s1) else []
    | (_, Some _) => []
    end.
Proof.
  unfold process_output.
  destruct (process_lines (split_sep "010" text) s) as [s1 [e|]]; cbn; auto.
  destruct (niter s1 >? 1); cbn; auto.
  destruct (update_plots s1); reflexivity.
Qed.

Lemma process_output_same_plots text s :
  same_plots s (fst (fst (process_output text s))).
Proof.
  apply process_output_preserves.
  - intros line; apply process_line_same_plots.
  - unfold same_plots; auto.
Qed.

(** Without a "Force" function object there is no forces plot. *)
Lemma reachable_forces_plotter s :
  reachable s -> forces_plot s = false -> forces_plotter s = None.
Proof.
  induction 1 as [fo | s Hs IH | text s Hs IH].
  - reflexivity.
  - cbn; intros H; rewrite H; auto.
  - destruct (process_output_same_plots text s) as (_ & H1 & _ & H2 & _).
    rewrite H1, H2; exact IH.
Qed.

(** C2.  On an object made without a "Force" function object
    ([forces_plot] is false), no call of [process_output] notifies the
    forces plot, whatever the counter and the lines of the chunk are: the
    attribute [forces_plotter] holds [None] and the call on it raises. *)
Theorem no_forces_update_when_disabled s text items :
  reachable s -> forces_plot s = false ->
  ~ In (forces_plotter_update items) (snd (fst (process_output text s))).
Proof.
  intros Hr Hf.
  pose proof (reachable_forces_plotter s Hr Hf) as Hn.
  destruct (process_output_same_plots text s) as (_ & H1 & _).
  rewrite Hn, process_output_state in H1; revert H1.
  rewrite process_output_events.
  destruct (process_lines (split_sep "010" text) s) as [s1 [e|]]; cbn; auto.
  destruct (niter s1 >? 1); cbn; auto.
  unfold update_plots; intros ->.
  destruct (residual_plotter s1); cbn; intros H; auto.
  destruct H as [H|[]]; discriminate.
Qed.

(** C3 (as amended).  Every notification of the residual plot carries
    exactly 12 entries, in the fixed order density, Ux, Uy, Uz, p, E, k,
    epsilon, nuTilda, omega, gammaInt, ReTheta, each with the series of
    that quantity as the call leaves it. *)
Theorem residual_update_items s text items :
  In (residual_plotter_update items) (snd (fst (process_output text s))) ->
  length items = 12%nat /\
  map fst items = residual_labels /\
  map snd items
  = map (series (fst (fst (process_output text s))))
        [ rhoResiduals; UxResiduals; UyResiduals; UzResiduals; pResiduals;
          EResiduals; kResiduals; epsilonResiduals; nuTildaResiduals;
          omegaResiduals; gammaIntResiduals; ReThetatResiduals ].
Proof.
  rewrite process_output_state, process_output_events.
  destruct (process_lines (split_sep "010" text) s) as [s1 [e|]]; cbn;
    [tauto|].
  destruct (niter s1 >? 1); cbn; [|tauto].
  unfold update_plots.
  destruct (residual_plotter s1), (forces_plotter s1),
    (force_coeffs_plotter s1); cbn; intros H;
    repeat (destruct H as [H|H]; try discriminate H);
    try contradiction; injection H as <-; repeat split.
Qed.

(** ** Lengths along a run *)

Lemma get_solver_cmd_bounded s0 : bounded (get_solver_cmd s0).
Proof.
  split; [cbn; lia|].
  intros a; unfold len; destruct a; cbn; lia.
Qed.

Lemma process_outputs_bounded texts s :
  bounded s -> bounded (process_outputs texts s).
Proof.
  revert s; induction texts as [|text rest IH]; intros s Hs; simpl; auto.
  apply IH, process_output_preserves; auto using process_line_bounded.
Qed.

(** C4 (as amended).  For every run of calls of [process_output] from a
    reset object: a series other than velocity-x, -y, -z and energy has
    length at most [max (niter - 1) 0], hence at most the counter, and
    once its length has reached [niter - 1] no line appends to it until
    the counter advances.  Velocity-x, -y, -z and energy, which the
    "Residual:" statement appends to under the guard of density alone,
    have length at most the length of density plus [max (niter - 1) 0],
    hence at most twice the counter. *)
Theorem series_length_bounds s0 texts a :
  let s := process_outputs texts (get_solver_cmd s0) in
  if coupled a then
    len a s <= len rhoResiduals s + Z.max (niter s - 1) 0 /\
    len a s <= 2 * niter s
  else
    len a s <= Z.max (niter s - 1) 0 /\
    len a s <= niter s /\
    forall line,
      startswith "Time = " line = false ->
      niter s - 1 <= len a s ->
      series (fst (process_line line s)) a = series s a.
Proof.
  intros s.
  assert (Hb : bounded s)
    by apply process_outputs_bounded, get_solver_cmd_bounded.
  destruct Hb as [H0 H].
  pose proof (H a) as Ha; pose proof (H rhoResiduals) as Hrho.
  cbn [guard_of coupled] in Hrho.
  destruct (coupled a) eqn:Hc.
  - split; lia.
  - split; [lia|]; split; [lia|].
    intros line Hl Hlen.
    apply (process_line_frozen a s line Hl); [|apply frozen_refl].
    split; [lia | rewrite Hc; discriminate].
Qed.

(** ** One "Ux," line in each timestep *)

Lemma lags_true g s : niter s - 1 > len g s -> lags g s = true.
Proof. unfold lags; intros H; apply Z.gtb_lt; lia. Qed.

Lemma lags_false g s : niter s - 1 <= len g s -> lags g s = false.
Proof.
  unfold lags; intros H.
  destruct (Z.gtb_spec (niter s - 1) (len g s)); auto; lia.
Qed.

(** Once the series is one short of the counter, each round appends its
    value. *)
Lemma process_lines_rounds rounds :
  forall s,
    Forall Ux_round rounds ->
    len UxResiduals s = niter s - 1 ->
    exists s',
      process_lines (timesteps rounds) s = (s', None) /\
      series s' UxResiduals = series s UxResiduals ++ map snd rounds /\
      niter s' = niter s + Z.of_nat (length rounds).
Proof.
  induction rounds as [|[[t u] v] rest IH]; intros s Hr Hlen.
  - exists s; cbn; rewrite app_nil_r; repeat split; lia.
  - inversion Hr as [|r rs Hhd Hrest]; subst; destruct Hhd as [Ht Hu].
    cbn [timesteps process_lines]; unfold seq.
    rewrite (process_line_time t) by assumption.
    rewrite (process_line_Ux v u) by assumption.
    rewrite lags_true by (unfold len in *; cbn; lia).
    destruct (IH (push UxResiduals v (set_niter (niter s + 1) s)) Hrest)
      as (s' & H1 & H2 & H3).
    { rewrite len_push; unfold len in *; cbn; lia. }
    exists s'; split; [exact H1|]; split.
    + rewrite H2; cbn; rewrite <- app_assoc; reflexivity.
    + rewrite H3; cbn [length niter push set_series set_niter]; lia.
Qed.

(** C5 (as amended).  For every N >= 1, N timestep markers, each
    followed by one well-formed "Ux," line, processed from a fresh reset
    yield a velocity-x series of length N - 1: the values of the second
    to the last timestep, in emission order (the value of the first
    timestep is held back by the guard). *)
Theorem Ux_across_timesteps s0 text rounds :
  Forall Ux_round rounds ->
  split_sep "010" text = timesteps rounds ->
  let s := fst (fst (process_output text (get_solver_cmd s0))) in
  series s UxResiduals = tl (map snd rounds) /\
  length (series s UxResiduals) = (length rounds - 1)%nat /\
  niter s = Z.of_nat (length rounds).
Proof.
  intros Hr Ht s; subst s; rewrite process_output_state, Ht.
  destruct rounds as [|[[t u] v] rest].
  - cbn; repeat split.
  - inversion Hr as [|r rs Hhd Hrest]; subst; destruct Hhd as [Htl Hul].
    cbn [timesteps process_lines]; unfold seq.
    rewrite (process_line_time t) by assumption.
    rewrite (process_line_Ux v u) by assumption.
    rewrite lags_false by (unfold len; cbn; lia).
    destruct (process_lines_rounds rest
                (set_niter (niter (get_solver_cmd s0) + 1) (get_solver_cmd s0))
                Hrest) as (s' & H1 & H2 & H3).
    { unfold len; cbn; lia. }
    rewrite H1; cbn [fst]; rewrite H2, H3; cbn -[Z.add Z.of_nat].
    rewrite length_map; repeat split; lia.
Qed.

(** ** Chunks without a timestep marker *)

(** C6 (as amended).  For every object and every chunk with no line
    that begins with "Time = ", [process_output] leaves the counter
    unchanged, whether it returns or raises, and changes no series whose
    guards are already at [niter - 1] or beyond; a series that lags
    further behind can still grow. *)
Theorem no_time_line_frame s text :
  Forall (fun line => startswith "Time = " line = false)
         (split_sep "010" text) ->
  let s' := fst (fst (process_output text s)) in
  niter s' = niter s /\
  forall a, blocked a s -> series s' a = series s a.
Proof.
  intros Hl s'; subst s'; rewrite process_output_state; split.
  - apply process_lines_niter, Hl.
  - intros a Hb.
    apply (process_lines_frozen a s _ Hl Hb s (frozen_refl a s)).
Qed.

(** ** The statements that a series does not depend on *)

Lemma preserves_absent P split tok g c :
  mem tok split = false -> preserves P (when split tok g c).
Proof. intros H s Hs; unfold when, If; rewrite H; exact Hs. Qed.

(** Proves that a sequence of statements keeps a fact about attributes
    that it appends to only under triggers known to be absent. *)
Ltac untouched :=
  repeat first [ apply preserves_seq
               | apply preserves_absent; assumption
               | apply preserves_If
               | apply preserves_append; intros ? ? ? ];
  cbn beta in *; rewrite ?series_push, ?niter_push; cbn [attr_eqb];
  first [ assumption | tauto | auto ].

(** Cuts a run that fell through after its first statement. *)
Ltac cut_first H s1 H1 :=
  apply seq_inv in H; destruct H as (s1 & H1 & H).

(** The state that the rest of a run [H : c x = (s', None)] starts from
    and ends in agree on what [c] keeps. *)
Ltac keep P H K :=
  match type of H with
  | ?c ?x = (?s', None) =>
      assert (K : preserves P c) by untouched;
      specialize (K x); rewrite H in K; cbn [fst] in K
  end.

Lemma when_inv split tok g c s s' :
  when split tok g c s = (s', None) ->
  if mem tok split && lags g s then c s = (s', None) else s' = s.
Proof.
  unfold when, If; destruct (mem tok split && lags g s); auto.
  intros H; injection H; auto.
Qed.

Lemma append_inv a e s s' :
  append a e s = (s', None) -> exists v, e = Ok v /\ s' = push a v s.
Proof.
  unfold append; destruct e as [v|err]; intros H; [|discriminate].
  exists v; injection H; auto.
Qed.

(** ** The guard of the velocity-x statement *)

(** Two well-formed "Ux," lines with no timestep marker between them:
    how many of the two values are retained depends on how far the
    series lags. *)
Lemma process_lines_two_Ux s l1 l2 v1 v2 :
  Ux_line v1 l1 -> Ux_line v2 l2 ->
  snd (process_lines [l1; l2] s) = None /\
  series (fst (process_lines [l1; l2] s)) UxResiduals
  = series s UxResiduals
    ++ (if len UxResiduals s <? niter s - 2 then [v1; v2]
        else if len UxResiduals s =? niter s - 2 then [v1]
        else []).
Proof.
  intros Hu1 Hu2.
  cbn [process_lines]; unfold seq.
  rewrite (process_line_Ux v1 l1), (process_line_Ux v2 l2) by assumption.
  cbn [fst snd]; split; [reflexivity|].
  unfold lags.
  destruct (Z.ltb_spec (len UxResiduals s) (niter s - 2)) as [Hlt|Hge].
  - destruct (Z.gtb_spec (niter s - 1) (len UxResiduals s)); [|lia].
    rewrite len_push, niter_push; cbn [attr_eqb].
    destruct (Z.gtb_spec (niter s - 1) (len UxResiduals s + 1)); [|lia].
    rewrite !series_push; cbn; rewrite <- app_assoc; reflexivity.
  - destruct (Z.eqb_spec (len UxResiduals s) (niter s - 2)) as [Heq|Hne].
    + destruct (Z.gtb_spec (niter s - 1) (len UxResiduals s)); [|lia].
      rewrite len_push, niter_push; cbn [attr_eqb].
      destruct (Z.gtb_spec (niter s - 1) (len UxResiduals s + 1)); [lia|].
      rewrite series_push; reflexivity.
    + destruct (Z.gtb_spec (niter s - 1) (len UxResiduals s)); [lia|].
      destruct (Z.gtb_spec (niter s - 1) (len UxResiduals s)); [lia|].
      rewrite app_nil_r; reflexivity.
Qed.

(** ** The two triggers of the pressure series *)

Lemma time_check_inv line s s1 :
  If (fun _ => startswith "Time = " line) incr_niter s = (s1, None) ->
  (forall a, series s1 a = series s a) /\
  niter s1 = niter s + (if startswith "Time = " line then 1 else 0).
Proof.
  unfold If, incr_niter; destruct (startswith "Time = " line);
    intros H; injection H as <-; cbn; split; auto; lia.
Qed.

(** C10 (as amended).  A line whose tokens contain both "p," and
    "p_rgh,", processed without an exception, appends nothing to the
    pressure series when its length is at [niter - 1] or beyond, one
    value when it is one short of [niter - 1] (the guard is read again on
    the grown series before the second append), and the value twice when
    it lags further. *)
Theorem pressure_two_triggers s line s' :
  mem "p," (split_ws line) = true ->
  mem "p_rgh," (split_ws line) = true ->
  process_line line s = (s', None) ->
  let d := niter s' - 1 - len pResiduals s in
  if d <=? 0 then series s' pResiduals = series s pResiduals
  else exists v,
      residual_at_7 (split_ws line) = Ok v /\
      series s' pResiduals
      = series s pResiduals ++ (if d =? 1 then [v] else [v; v]).
Proof.
  intros Hp Hrgh H d; subst d; unfold process_line in H.
  cut_first H s1 H1; apply time_check_inv in H1 as [Hs1 Hn1].
  pose proof (process_line_niter line s) as Hn.
  cut_first H s2 H2; keep (same_at pResiduals s1) H2 K2.
  cut_first H s3 H3; keep (same_at pResiduals s2) H3 K3.
  cut_first H s4 H4; keep (same_at pResiduals s3) H4 K4.
  cut_first H s5 H5; cut_first H s6 H6.
  keep (same_at pResiduals s6) H K.
  destruct K as [Ks Kn]; [split; reflexivity|].
  destruct K2 as [K2s K2n]; [split; reflexivity|].
  destruct K3 as [K3s K3n]; [split; reflexivity|].
  destruct K4 as [K4s K4n]; [split; reflexivity|].
  assert (H4s : series s4 pResiduals = series s pResiduals)
    by (rewrite K4s, K3s, K2s; apply Hs1).
  keep (fun x => niter x = niter s4) H5 K5.
  keep (fun x => niter x = niter s5) H6 K6.
  rewrite Ks, Kn, K6, K5 by reflexivity.
  clear H H2 H3 H4 Ks Kn K6 K5.
  apply when_inv in H5; apply when_inv in H6.
  rewrite Hp in H5; rewrite Hrgh in H6; cbn [andb] in H5, H6.
  unfold lags in H5, H6.
  assert (Hlen : len pResiduals s4 = len pResiduals s)
    by (unfold len; rewrite H4s; reflexivity).
  destruct (Z.gtb_spec (niter s4 - 1) (len pResiduals s4)) as [Hlag|Hlag].
  - apply append_inv in H5 as (v & Hv & ->).
    rewrite len_push, niter_push in H6; cbn [attr_eqb] in H6.
    destruct (Z.gtb_spec (niter s4 - 1) (len pResiduals s4 + 1)) as [Hl2|Hl2].
    + apply append_inv in H6 as (v' & Hv' & ->).
      rewrite Hv in Hv'; injection Hv' as <-.
      destruct (Z.leb_spec (niter s4 - 1 - len pResiduals s) 0); [lia|].
      exists v; split; [exact Hv|].
      destruct (Z.eqb_spec (niter s4 - 1 - len pResiduals s) 1); [lia|].
      rewrite !series_push; cbn [attr_eqb]; rewrite H4s, <- app_assoc.
      reflexivity.
    + subst s6.
      destruct (Z.leb_spec (niter s4 - 1 - len pResiduals s) 0); [lia|].
      exists v; split; [exact Hv|].
      destruct (Z.eqb_spec (niter s4 - 1 - len pResiduals s) 1); [|lia].
      rewrite series_push; cbn [attr_eqb]; rewrite H4s; reflexivity.
  - subst s5.
    destruct (Z.gtb_spec (niter s4 - 1) (len pResiduals s4)); [lia|].
    subst s6.
    destruct (Z.leb_spec (niter s4 - 1 - len pResiduals s) 0); [|lia].
    exact H4s.
Qed.

(** ** The coupled format *)

(** What a statement with one append does when it falls through. *)
Lemma when_append_inv split tok g a e s s' :
  when split tok g (append a e) s = (s', None) ->
  exists l,
    (forall b, series s' b
               = if attr_eqb b a then series s b ++ l else series s b) /\
    niter s' = niter s /\
    (mem tok split = false -> l = []).
Proof.
  intros H; apply when_inv in H.
  assert (Hnil : forall b, series s b
                           = if attr_eqb b a then series s b ++ [] else series s b)
    by (intros b; rewrite app_nil_r; destruct (attr_eqb b a); reflexivity).
  destruct (mem tok split) eqn:Hm; cbn [andb] in H.
  - destruct (lags g s).
    + apply append_inv in H as (v & _ & ->); exists [v].
      split; [|split]; [|reflexivity|discriminate].
      intros b; rewrite series_push; reflexivity.
    + subst s'; exists []; split; [|split]; auto.
  - subst s'; exists []; split; [|split]; auto.
Qed.

(** C9.  For every line whose tokens contain "Residual:" while the
    density series satisfies the lag guard, and which is processed
    without an exception, the tokens at positions 4, 5, 6, 7, 8 are
    parsed, with the leading "(" stripped from the token at 5 and the
    trailing ")" from the token at 7, and appended to the density,
    velocity-x, velocity-y, velocity-z and energy series respectively.
    ([ux], [uy], [uz], [e] are what the statements for "Ux,", "Uy,",
    "Uz," and "h," of the same line append before; they are empty when
    those tokens are absent.) *)
Theorem coupled_residuals s line s' :
  mem "Residual:" (split_ws line) = true ->
  process_line line s = (s', None) ->
  len rhoResiduals s < niter s' - 1 ->
  exists v4 v5 v6 v7 v8 ux uy uz e,
    float_at (split_ws line) 4 (fun t => t) = Ok v4 /\
    float_at (split_ws line) 5 (lstrip "(") = Ok v5 /\
    float_at (split_ws line) 6 (fun t => t) = Ok v6 /\
    float_at (split_ws line) 7 (rstrip ")") = Ok v7 /\
    float_at (split_ws line) 8 (fun t => t) = Ok v8 /\
    series s' rhoResiduals = series s rhoResiduals ++ [v4] /\
    series s' UxResiduals = (series s UxResiduals ++ ux) ++ [v5] /\
    series s' UyResiduals = (series s UyResiduals ++ uy) ++ [v6] /\
    series s' UzResiduals = (series s UzResiduals ++ uz) ++ [v7] /\
    series s' EResiduals = (series s EResiduals ++ e) ++ [v8] /\
    (mem "Ux," (split_ws line) = false -> ux = []) /\
    (mem "Uy," (split_ws line) = false -> uy = []) /\
    (mem "Uz," (split_ws line) = false -> uz = []) /\
    (mem "h," (split_ws line) = false -> e = []).
Proof.
  intros Hres H Hlag.
  pose proof (process_line_niter line s) as Hn; rewrite H in Hn.
  cbn [fst] in Hn; unfold process_line in H.
  cut_first H s1 H1; apply time_check_inv in H1 as [Hs1 Hn1].
  cut_first H s2 H2; apply when_append_inv in H2 as (ux & S2 & N2 & E2).
  cut_first H s3 H3; apply when_append_inv in H3 as (uy & S3 & N3 & E3).
  cut_first H s4 H4; apply when_append_inv in H4 as (uz & S4 & N4 & E4).
  cut_first H s5 H5; apply when_append_inv in H5 as (p1 & S5 & N5 & _).
  cut_first H s6 H6; apply when_append_inv in H6 as (p2 & S6 & N6 & _).
  cut_first H s7 H7; apply when_append_inv in H7 as (e & S7 & N7 & E7).
  cut_first H s8 H8.
  keep (same_coupled s8) H K.
  destruct K as (Kr & Kx & Ky & Kz & Ke); [repeat split|].
  clear H; apply when_inv in H8; rewrite Hres in H8.
  rewrite lags_true in H8.
  2:{ unfold len in *; rewrite S7, S6, S5, S4, S3, S2, Hs1; cbn [attr_eqb].
      lia. }
  cbn [andb] in H8.
  cut_first H8 a1 A1; apply append_inv in A1 as (v4 & V4 & ->).
  cut_first H8 a2 A2; apply append_inv in A2 as (v5 & V5 & ->).
  cut_first H8 a3 A3; apply append_inv in A3 as (v6 & V6 & ->).
  cut_first H8 a4 A4; apply append_inv in A4 as (v7 & V7 & ->).
  apply append_inv in H8 as (v8 & V8 & ->).
  exists v4, v5, v6, v7, v8, ux, uy, uz, e.
  rewrite Kr, Kx, Ky, Kz, Ke, !series_push; cbn [attr_eqb].
  rewrite !S7, !S6, !S5, !S4, !S3, !S2, !Hs1; cbn [attr_eqb].
  repeat split; assumption.
Qed.

(** ** Decode failures *)

Lemma decodes_seq c1 c2 : decodes c1 -> decodes c2 -> decodes (c1 ;; c2).
Proof.
  intros H1 H2 s e; unfold seq; specialize (H1 s).
  destruct (c1 s) as [s1 [e1|]]; cbn in *; [apply H1 | apply H2].
Qed.

Lemma decodes_If b c : decodes c -> decodes (If b c).
Proof.
  intros H s e; unfold If; destruct (b s); [apply H | discriminate].
Qed.

Lemma decodes_append a split i f : decodes (append a (float_at split i f)).
Proof.
  intros s e; unfold append, float_at, decode_failure.
  destruct (nth_error split i) as [t|]; [destruct (float (f t))|]; cbn;
    intros H; try discriminate; injection H as <-; auto.
Qed.

Lemma process_line_decodes line : decodes (process_line line).
Proof.
  unfold process_line, when, residual_at_7.
  apply decodes_seq.
  - apply decodes_If; intros s e H; discriminate.
  - repeat first [ apply decodes_seq | apply decodes_If
                 | apply decodes_append ].
Qed.

Lemma process_line_extends s line : preserves (extends s) (process_line line).
Proof.
  unfold process_line, when; statements.
  { intros x H a; destruct (H a) as [l Hl]; exists l; exact Hl. }
  all: intros x v H a; destruct (H a) as [l Hl];
    rewrite series_push; destruct (attr_eqb a _);
    [ exists (l ++ [v]); rewrite Hl, app_assoc; reflexivity
    | exists l; exact Hl ].
Qed.

Lemma extends_refl s : extends s s.
Proof. intros a; exists []; rewrite app_nil_r; reflexivity. Qed.

Lemma raises_seq P c1 c2 : preserves P c1 -> raises P c2 -> raises P (c1 ;; c2).
Proof.
  intros H1 H2 x Hx; unfold seq; specialize (H1 x Hx).
  destruct (c1 x) as [x1 [e|]]; cbn in *.
  - split; [exact H1 | discriminate].
  - apply H2, H1.
Qed.

Lemma process_lines_app pre rest s s1 :
  process_lines pre s = (s1, None) ->
  process_lines (pre ++ rest) s = process_lines rest s1.
Proof.
  revert s; induction pre as [|line pre IH]; intros s H; cbn in *.
  - injection H as ->; reflexivity.
  - unfold seq in *; destruct (process_line line s) as [x [e|]];
      [discriminate | apply IH, H].
Qed.

Lemma quiet_before_Cd_absent split t :
  quiet_before_Cd split = true -> In t triggers ->
  t <> "Cd" -> t <> "Cl" -> mem t split = false.
Proof.
  unfold quiet_before_Cd; rewrite forallb_forall; intros H Hin H1 H2.
  specialize (H t Hin).
  apply orb_prop in H as [H|H]; [apply orb_prop in H as [H|H]|].
  - apply String.eqb_eq in H; contradiction.
  - apply String.eqb_eq in H; contradiction.
  - apply negb_true_iff in H; exact H.
Qed.

(** A line with "Cd" whose token at position 2 is not a number, met
    while the drag series lags: the line raises before it reaches the
    statement for "Cl". *)
Lemma Cd_line_raises line s t :
  mem "Cd" (split_ws line) = true ->
  nth_error (split_ws line) 2 = Some t -> float t = None ->
  len cdResiduals s
  < niter s + (if startswith "Time = " line then 1 else 0) - 1 ->
  same_coeffs s (niter s + (if startswith "Time = " line then 1 else 0))
              (fst (process_line line s)) /\
  snd (process_line line s) <> None.
Proof.
  intros Hm Ht Hf Hlag; unfold process_line.
  set (n := niter s + (if startswith "Time = " line then 1 else 0)) in *.
  match goal with
  | |- context [(?c1 ;; ?c2) s] =>
      assert (R : raises (same_coeffs s n) c2)
  end.
  { do 15 (apply raises_seq; [untouched|]).
    intros x (Hcd & Hcl & Hn); unfold seq, when, If.
    rewrite Hm, lags_true by (unfold len in *; rewrite Hcd, Hn; lia).
    unfold float_at; rewrite Ht, Hf; cbn.
    split; [repeat split; assumption | discriminate]. }
  unfold seq at 1; unfold If at 1, incr_niter.
  destruct (startswith "Time = " line); apply R; repeat split; subst n;
    cbn; lia.
Qed.

(** C8.  If a line of the chunk contains the token "Cd" with a token at
    position 2 that is not a number, and the drag series passes the lag
    guard when the line is reached, [process_output] raises a decode
    failure to its caller and notifies no plot; the lift-coefficient
    series is as the earlier lines of the chunk left it, and every series
    keeps what the earlier lines appended.  When no other trigger stands
    before "Cd" in that line the exception is the [ValueError] of the
    drag value and the line appends nothing. *)
Theorem Cd_decode_failure s text pre line post s1 t :
  split_sep "010" text = pre ++ line :: post ->
  process_lines pre s = (s1, None) ->
  mem "Cd" (split_ws line) = true ->
  nth_error (split_ws line) 2 = Some t -> float t = None ->
  len cdResiduals s1
  < niter s1 + (if startswith "Time = " line then 1 else 0) - 1 ->
  let s' := fst (fst (process_output text s)) in
  exists e,
    snd (process_output text s) = Some e /\
    decode_failure e /\
    snd (fst (process_output text s)) = [] /\
    series s' clResiduals = series s1 clResiduals /\
    extends s1 s' /\
    (quiet_before_Cd (split_ws line) = true ->
     e = ValueError /\ forall a, series s' a = series s1 a).
Proof.
  intros Hsplit Hpre Hm Ht Hf Hlag s'; subst s'.
  destruct (Cd_line_raises line s1 t Hm Ht Hf Hlag) as [(_ & Hcl & _) Hr].
  pose proof (process_line_decodes line s1) as Hd.
  pose proof (process_line_extends s1 line s1 (extends_refl s1)) as He.
  assert (Hq : quiet_before_Cd (split_ws line) = true ->
               process_line line s1
               = (if startswith "Time = " line
                  then set_niter (niter s1 + 1) s1 else s1, Some ValueError)).
  { intros Hq; unfold process_line, seq, when, If, incr_niter.
    rewrite_absent
      (fun t => quiet_before_Cd_absent (split_ws line) t Hq).
    rewrite Hm; unfold float_at; rewrite Ht, Hf.
    destruct (startswith "Time = " line); cbn [andb];
      rewrite lags_true by (unfold len in *; cbn in *; lia); reflexivity. }
  unfold process_output; rewrite Hsplit, (process_lines_app _ _ _ _ Hpre).
  cbn [process_lines]; unfold seq.
  destruct (process_line line s1) as [x [e|]] eqn:Hline; [|contradiction].
  cbn [fst snd] in *; exists e; split; [reflexivity|].
  split; [apply Hd; reflexivity|].
  split; [reflexivity|]; split; [exact Hcl|]; split; [exact He|].
  intros Hq'; specialize (Hq Hq'); injection Hq as -> ->.
  split; [reflexivity|].
  intros a; destruct (startswith "Time = " line); reflexivity.
Qed.

(** ** The counter and the series along a chunk *)

Lemma count_markers_nonneg lines : 0 <= count_markers lines.
Proof.
  induction lines as [|line rest IH]; cbn; [lia|].
  destruct (startswith "Time = " line); lia.
Qed.

Lemma process_lines_count lines :
  forall s,
    niter s <= niter (fst (process_lines lines s))
    <= niter s + count_markers lines /\
    (snd (process_lines lines s) = None ->
     niter (fst (process_lines lines s)) = niter s + count_markers lines).
Proof.
  induction lines as [|line rest IH]; intros s; cbn [process_lines count_markers].
  - cbn; split; [lia | intros _; lia].
  - pose proof (process_line_niter line s) as Hn.
    pose proof (count_markers_nonneg rest) as Hc.
    unfold seq; destruct (process_line line s) as [x [e|]]; cbn [fst snd] in *.
    + split; [|discriminate].
      destruct (startswith "Time = " line); lia.
    + destruct (IH x) as [H1 H2]; rewrite Hn in H1, H2.
      split; [|intros H; rewrite (H2 H); lia].
      destruct (startswith "Time = " line); lia.
Qed.

(** X1.  [process_output] only appends and only counts up: every series
    of the object is a prefix of what it is after the call, and the
    counter grows by at most the number of lines of the chunk that begin
    with "Time = ", by exactly that number when no line raises. *)
Theorem process_output_append_only s text :
  let s' := fst (fst (process_output text s)) in
  let n := count_markers (split_sep "010" text) in
  extends s s' /\
  niter s <= niter s' <= niter s + n /\
  (snd (process_lines (split_sep "010" text) s) = None ->
   niter s' = niter s + n).
Proof.
  cbv zeta; split.
  - apply (process_output_preserves (extends s)).
    + intros line; apply process_line_extends.
    + apply extends_refl.
  - rewrite process_output_state; apply process_lines_count.
Qed.

(** X2.  A line that raises ends the call: the lines after it are not
    processed and no plot is notified; the object is left as the failing
    statement found it. *)
Theorem failing_line_ends_the_call s text pre line post s1 s2 e :
  split_sep "010" text = pre ++ line :: post ->
  process_lines pre s = (s1, None) ->
  process_line line s1 = (s2, Some e) ->
  process_output text s = (s2, [], Some e).
Proof.
  intros Ht Hpre Hline; unfold process_output.
  rewrite Ht, (process_lines_app _ _ _ _ Hpre); cbn [process_lines].
  unfold seq; rewrite Hline; reflexivity.
Qed.

Lemma process_line_quiet line s :
  startswith "Time = " line = false -> quiet (split_ws line) = true ->
  process_line line s = (s, None).
Proof.
  intros Hs Hq; unfold process_line, seq, when, If.
  rewrite Hs; rewrite_absent (fun t => quiet_absent (split_ws line) t Hq).
  reflexivity.
Qed.

Lemma process_lines_cons_quiet line rest s :
  startswith "Time = " line = false -> quiet (split_ws line) = true ->
  process_lines (line :: rest) s = process_lines rest s.
Proof.
  intros Hs Hq; cbn [process_lines]; unfold seq.
  rewrite process_line_quiet by assumption; reflexivity.
Qed.

Lemma process_lines_insert_quiet pre line post :
  startswith "Time = " line = false -> quiet (split_ws line) = true ->
  forall s, process_lines (pre ++ line :: post) s = process_lines (pre ++ post) s.
Proof.
  intros Hs Hq; induction pre as [|l pre IH]; intros s.
  - apply process_lines_cons_quiet; assumption.
  - cbn [app process_lines]; unfold seq.
    destruct (process_line l s) as [x [e|]]; [reflexivity | apply IH].
Qed.

(** X3.  Lines that carry no trigger token and do not begin with
    "Time = " (blank lines among them) are ignored: a chunk with such a
    line at any place does what the chunk without it does. *)
Theorem quiet_line_is_ignored s text text' pre line post :
  startswith "Time = " line = false ->
  quiet (split_ws line) = true ->
  split_sep "010" text = pre ++ line :: post ->
  split_sep "010" text' = pre ++ post ->
  process_output text s = process_output text' s.
Proof.
  intros Hs Hq Ht Ht'; unfold process_output.
  rewrite Ht, Ht', process_lines_insert_quiet by assumption; reflexivity.
Qed.

Lemma split_sep_not_nil sep t : split_sep sep t <> [].
Proof.
  destruct t as [|c r]; cbn; [discriminate|].
  destruct (Ascii.eqb c sep); [discriminate|].
  destruct (split_sep sep r); discriminate.
Qed.

Lemma split_sep_app sep a b :
  split_sep sep (a ++ String sep b)%string = split_sep sep a ++ split_sep sep b.
Proof.
  induction a as [|c a IH]; cbn.
  - rewrite Ascii.eqb_refl; reflexivity.
  - destruct (Ascii.eqb c sep); [rewrite IH; reflexivity|].
    rewrite IH; pose proof (split_sep_not_nil sep a) as Hn.
    destruct (split_sep sep a); [contradiction | reflexivity].
Qed.

(** X4.  A log cut at a line end can be given in two calls: when the
    lines of [a] raise nothing, one call on [a], a newline and [b] leaves
    the object, notifies the plots and raises as the call on [b] made
    after the call on [a]. *)
Theorem process_output_at_line_end s a b s1 :
  process_lines (split_sep "010" a) s = (s1, None) ->
  fst (fst (process_output a s)) = s1 /\
  process_output (a ++ String "010" b)%string s = process_output b s1.
Proof.
  intros Ha; split.
  - rewrite process_output_state, Ha; reflexivity.
  - unfold process_output.
    rewrite split_sep_app, (process_lines_app _ _ _ _ Ha); reflexivity.
Qed.

(** ** The calls on the plots *)

Lemma process_lines_decodes lines : decodes (process_lines lines).
Proof.
  induction lines as [|line rest IH]; cbn [process_lines].
  - intros s e H; discriminate H.
  - apply decodes_seq; [apply process_line_decodes | exact IH].
Qed.

Lemma not_decode_failure_AttributeError : ~ decode_failure AttributeError.
Proof. intros [H|H]; discriminate H. Qed.

(** X5.  The plots are notified in the order residuals, forces, force
    coefficients, each with the series as the chunk left them, and the
    calls stop at the first plot that is missing: what a call of
    [process_output] notifies is a prefix of these three calls.  All
    three are made exactly when the call returns with the counter above
    1, and none is made when a line raised a decode failure. *)
Theorem updates_are_a_prefix s text :
  let r := process_output text s in
  let s' := fst (fst r) in
  exists k,
    (k <= 3)%nat /\
    snd (fst r) = firstn k (all_updates s') /\
    (k = 3%nat <-> snd r = None /\ 1 < niter s') /\
    (forall e, snd r = Some e -> decode_failure e -> k = 0%nat).
Proof.
  cbv zeta; unfold process_output.
  pose proof (process_lines_decodes (split_sep "010" text) s) as Hd.
  destruct (process_lines (split_sep "010" text) s) as [s1 [e|]].
  - exists 0%nat; cbn; repeat split; try lia; try discriminate.
    intros [H _]; discriminate H.
  - destruct (Z.gtb_spec (niter s1) 1) as [Hn|Hn].
    + unfold update_plots, all_updates.
      destruct (residual_plotter s1);
        [destruct (forces_plotter s1);
         [destruct (force_coeffs_plotter s1)|]|]; cbn.
      * exists 3%nat; repeat split; try lia.
        intros e H; discriminate H.
      * exists 2%nat; repeat split; try lia; try discriminate.
        -- intros [H _]; discriminate H.
        -- intros e H Hf; injection H as <-.
           destruct (not_decode_failure_AttributeError Hf).
      * exists 1%nat; repeat split; try lia; try discriminate.
        -- intros [H _]; discriminate H.
        -- intros e H Hf; injection H as <-.
           destruct (not_decode_failure_AttributeError Hf).
      * exists 0%nat; repeat split; try lia; try discriminate.
        intros [H _]; discriminate H.
    + exists 0%nat; cbn; repeat split; try lia; try discriminate.
Qed.

Lemma process_outputs_preserves P texts :
  (forall line, preserves P (process_line line)) ->
  forall s, P s -> P (process_outputs texts s).
Proof.
  intros H; induction texts as [|text rest IH]; intros s Hs; cbn; auto.
  apply IH, process_output_preserves; auto.
Qed.

Lemma process_outputs_same_plots texts s :
  same_plots s (process_outputs texts s).
Proof.
  apply process_outputs_preserves.
  - intros line; apply process_line_same_plots.
  - unfold same_plots; auto.
Qed.

(** Without a "ForceCoefficients" function object there is no plot of
    the force coefficients. *)
Lemma reachable_force_coeffs_plotter s :
  reachable s -> force_coeffs_plot s = false -> force_coeffs_plotter s = None.
Proof.
  induction 1 as [fo | s Hs IH | text s Hs IH].
  - reflexivity.
  - cbn; intros H; rewrite H; auto.
  - destruct (process_output_same_plots text s) as (_ & _ & H1 & _ & H2).
    rewrite H1, H2; exact IH.
Qed.

(** X6.  Once [get_solver_cmd] has run, what a call that reaches the
    plots (no line raised, counter above 1) does is fixed by the function
    objects the object was made with: with "Force" and
    "ForceCoefficients" objects the three plots are notified and the call
    returns; without a "ForceCoefficients" object the residual and forces
    plots are notified and the call raises [AttributeError]; without a
    "Force" object only the residual plot is notified before the call
    raises [AttributeError], whether or not there is a
    "ForceCoefficients" object. *)
Theorem updates_follow_function_objects s0 texts text s1 :
  reachable s0 ->
  let s := process_outputs texts (get_solver_cmd s0) in
  process_lines (split_sep "010" text) s = (s1, None) ->
  1 < niter s1 ->
  process_output text s
  = (s1,
     firstn (if forces_plot s0
             then if force_coeffs_plot s0 then 3 else 2 else 1)%nat
            (all_updates s1),
     if forces_plot s0 && force_coeffs_plot s0 then None
     else Some AttributeError).
Proof.
  intros Hr s Hl Hn.
  assert (Hp : same_plots (get_solver_cmd s0) s1).
  { pose proof (process_outputs_same_plots texts (get_solver_cmd s0)) as H1.
    pose proof (process_lines_preserves (same_plots s)
                  (split_sep "010" text)
                  (fun line => process_line_same_plots s line) s) as H2.
    rewrite Hl in H2; cbn [fst] in H2.
    destruct H1 as (A1 & A2 & A3 & A4 & A5).
    destruct H2 as (B1 & B2 & B3 & B4 & B5); [unfold same_plots; auto|].
    fold s in A1, A2, A3, A4, A5.
    unfold same_plots; repeat split; congruence. }
  destruct Hp as (P1 & P2 & P3 & _).
  unfold process_output; rewrite Hl.
  destruct (Z.gtb_spec (niter s1) 1) as [_|Hc]; [|lia].
  unfold update_plots; rewrite P1, P2, P3; cbn.
  pose proof (reachable_forces_plotter s0 Hr) as Hf.
  pose proof (reachable_force_coeffs_plotter s0 Hr) as Hc.
  destruct (forces_plot s0), (force_coeffs_plot s0); cbn;
    rewrite ?Hf, ?Hc by reflexivity; reflexivity.
Qed.

Lemma reachable_init_plots fo texts :
  residual_plotter (process_outputs texts (init fo)) = None.
Proof.
  destruct (process_outputs_same_plots texts (init fo)) as (H & _).
  rewrite H; reflexivity.
Qed.

(** X7.  On an object on which [get_solver_cmd] has not run yet there is
    no residual plot: a call that reaches the plots (no line raised,
    counter above 1) raises [AttributeError] and notifies nothing, after
    the series were updated. *)
Theorem update_before_get_solver_cmd fo texts text s1 :
  let s := process_outputs texts (init fo) in
  process_lines (split_sep "010" text) s = (s1, None) ->
  1 < niter s1 ->
  process_output text s = (s1, [], Some AttributeError).
Proof.
  intros s Hl Hn.
  pose proof (process_lines_preserves (same_plots s)
                (split_sep "010" text)
                (fun line => process_line_same_plots s line) s) as H2.
  rewrite Hl in H2; cbn [fst] in H2.
  destruct H2 as (B1 & _); [unfold same_plots; auto|].
  unfold s in B1; rewrite reachable_init_plots in B1.
  unfold process_output; rewrite Hl.
  destruct (Z.gtb_spec (niter s1) 1) as [_|Hc]; [|lia].
  unfold update_plots; rewrite B1; reflexivity.
Qed.

(** ** Before the second timestep *)

Lemma when_blocked split tok g c s :
  lags g s = false -> when split tok g c s = (s, None).
Proof. unfold when, If; intros ->; rewrite andb_false_r; reflexivity. Qed.

Lemma process_line_first_timestep line s :
  niter s + (if startswith "Time = " line then 1 else 0) <= 1 ->
  process_line line s
  = (if startswith "Time = " line then set_niter (niter s + 1) s else s, None).
Proof.
  intros Hn; unfold process_line, seq, If at 1, incr_niter.
  destruct (startswith "Time = " line); cbv beta iota;
    repeat (rewrite when_blocked
              by (apply lags_false; unfold len; cbn [niter series set_niter];
                  lia);
            cbv beta iota);
    reflexivity.
Qed.

Lemma process_lines_first_timestep lines :
  forall s,
    niter s + count_markers lines <= 1 ->
    exists s',
      process_lines lines s = (s', None) /\
      niter s' = niter s + count_markers lines /\
      forall a, series s' a = series s a.
Proof.
  induction lines as [|line rest IH]; intros s Hn;
    cbn [process_lines count_markers] in *.
  - exists s; repeat split; lia.
  - pose proof (count_markers_nonneg rest) as Hc.
    unfold seq; rewrite process_line_first_timestep by lia.
    destruct (startswith "Time = " line).
    + destruct (IH (set_niter (niter s + 1) s)) as (s' & H1 & H2 & H3);
        [cbn [niter set_niter]; lia|].
      exists s'; split; [exact H1|]; split;
        [rewrite H2; cbn [niter set_niter]; lia | exact H3].
    + destruct (IH s) as (s' & H1 & H2 & H3); [lia|].
      exists s'; split; [exact H1|]; split; [rewrite H2; lia | exact H3].
Qed.

(** X8.  While the counter, with the timestep markers of the chunk
    counted in, is at most 1, [process_output] only counts: whatever the
    lines hold (trigger tokens, short lines, tokens that are no numbers)
    it returns without an exception, changes no series and notifies no
    plot. *)
Theorem first_timestep_only_counts s text :
  niter s + count_markers (split_sep "010" text) <= 1 ->
  let r := process_output text s in
  snd r = None /\ snd (fst r) = [] /\
  niter (fst (fst r)) = niter s + count_markers (split_sep "010" text) /\
  forall a, series (fst (fst r)) a = series s a.
Proof.
  intros Hn.
  destruct (process_lines_first_timestep _ s Hn) as (s' & H1 & H2 & H3).
  cbv zeta; unfold process_output; rewrite H1.
  destruct (Z.gtb_spec (niter s') 1) as [Hc|_]; [lia|].
  cbn; repeat split; assumption.
Qed.

(** ** Short lines *)

Lemma in_range_seq c1 c2 : in_range c1 -> in_range c2 -> in_range (c1 ;; c2).
Proof.
  intros H1 H2 s; unfold seq; specialize (H1 s).
  destruct (c1 s) as [x [e|]]; cbn in *; [exact H1 | apply H2].
Qed.

Lemma in_range_If b c : in_range c -> in_range (If b c).
Proof. intros H s; unfold If; destruct (b s); [apply H | discriminate]. Qed.

Lemma in_range_append a split i f :
  (i < length split)%nat -> in_range (append a (float_at split i f)).
Proof.
  intros Hi s; unfold append, float_at.
  destruct (nth_error split i) as [t|] eqn:Ht.
  - destruct (float (f t)); discriminate.
  - apply nth_error_None in Ht; lia.
Qed.

(** X9.  Every position that [process_line] reads is at most 8: a line
    of at least 9 tokens never raises [IndexError]. *)
Theorem long_line_no_IndexError line s :
  (9 <= length (split_ws line))%nat ->
  snd (process_line line s) <> Some IndexError.
Proof.
  intros Hl; revert s; change (in_range (process_line line)).
  unfold process_line, when, residual_at_7.
  apply in_range_seq; [apply in_range_If; intros s; discriminate|].
  repeat first [ apply in_range_seq | apply in_range_If
               | apply in_range_append; lia ].
Qed.

(** ** How much a line appends *)

Lemma grows_seq a k1 k2 c1 c2 :
  grows a k1 c1 -> grows a k2 c2 -> grows a (k1 + k2) (c1 ;; c2).
Proof.
  intros H1 H2 s; unfold seq; specialize (H1 s).
  destruct (c1 s) as [x [e|]]; cbn [fst] in *; [lia|].
  specialize (H2 x); lia.
Qed.

Lemma grows_If a k b c : grows a k c -> grows a k (If b c).
Proof. intros H s; unfold If; destruct (b s); [apply H | cbn; lia]. Qed.

Lemma grows_append a b e :
  grows a (if attr_eqb a b then 1 else 0) (append b e).
Proof.
  intros s; unfold append; destruct e as [v|err]; cbn [fst]; [|lia].
  rewrite series_push; destruct (attr_eqb a b); [|lia].
  rewrite length_app; cbn; lia.
Qed.

Lemma grows_incr_niter a : grows a 0 incr_niter.
Proof. intros s; cbn; lia. Qed.

Lemma grows_le a k k' c : grows a k c -> (k <= k')%nat -> grows a k' c.
Proof. intros H Hk s; specialize (H s); lia. Qed.

(** X10.  One line appends at most two values to the velocity, pressure
    and energy series, which two statements write to, and at most one
    value to every other series, whether it falls through or raises. *)
Theorem process_line_growth line s a :
  (length (series (fst (process_line line s)) a)
   <= length (series s a) + writers a)%nat.
Proof.
  revert s; change (grows a (writers a) (process_line line)).
  eapply grows_le.
  - unfold process_line, when.
    repeat first [ eapply grows_seq | eapply grows_If
                 | eapply grows_append | eapply grows_incr_niter ].
  - destruct a; cbn; lia.
Qed.

(** ** Which series a trigger writes to *)

Lemma process_line_residual_trigger tok a line s :
  In (tok, a) residual_triggers ->
  startswith "Time = " line = false ->
  mem tok (split_ws line) = true ->
  only tok (split_ws line) = true ->
  process_line line s
  = if lags a s then append a (residual_at_7 (split_ws line)) s
    else (s, None).
Proof.
  intros Hin Hs Hm Ho; cbn in Hin.
  repeat (destruct Hin as [Hin|Hin]; [injection Hin as <- <-|]);
    try contradiction;
    unfold process_line, seq, when, If; rewrite Hs, Hm;
    rewrite_absent (fun t => only_absent _ (split_ws line) t Ho);
    cbn [andb];
    match goal with |- context [lags ?g s] => destruct (lags g s) end;
    try reflexivity;
    unfold append; destruct (residual_at_7 (split_ws line)); reflexivity.
Qed.

(** X11.  A line that does not begin with "Time = " and whose only
    trigger is one of "Ux,", "Uy,", "Uz,", "p,", "p_rgh,", "h,", "k,",
    "epsilon,", "omega,", "nuTilda,", "gammaInt,", "ReThetat," does one
    thing: when the series of that trigger lags it appends the value read
    at position 7 to it, or raises what reading it raises; otherwise it
    does nothing.  "p," and "p_rgh," both write to the pressure series
    and "h," writes to the energy series. *)
Theorem residual_trigger_line tok a line s :
  In (tok, a) residual_triggers ->
  startswith "Time = " line = false ->
  mem tok (split_ws line) = true ->
  only tok (split_ws line) = true ->
  process_line line s
  = if lags a s then append a (residual_at_7 (split_ws line)) s
    else (s, None).
Proof. exact (process_line_residual_trigger tok a line s). Qed.

(** X12.  A line that does not begin with "Time = " and whose only
    trigger is "Cd" or "Cl" appends the value of the token at position 2
    to the drag or to the lift series when that series lags, or raises
    what reading it raises; otherwise it does nothing. *)
Theorem coefficient_trigger_line tok a line s :
  In (tok, a) coefficient_triggers ->
  startswith "Time = " line = false ->
  mem tok (split_ws line) = true ->
  only tok (split_ws line) = true ->
  process_line line s
  = if lags a s then append a (float_at (split_ws line) 2 (fun t => t)) s
    else (s, None).
Proof.
  intros Hin Hs Hm Ho; cbn in Hin.
  repeat (destruct Hin as [Hin|Hin]; [injection Hin as <- <-|]);
    try contradiction;
    unfold process_line, seq, when, If; rewrite Hs, Hm;
    rewrite_absent (fun t => only_absent _ (split_ws line) t Ho);
    cbn [andb];
    match goal with |- context [lags ?g s] => destruct (lags g s) end;
    try reflexivity;
    unfold append; destruct (float_at (split_ws line) 2 (fun t => t));
    reflexivity.
Qed.

(** ** The force monitors *)

(** Moves past the first statement of a run that fell through, which
    keeps [P]. *)
Ltac advance P H Hinv :=
  let x := fresh "x" in
  let Hx := fresh "Hx" in
  let K := fresh "K" in
  apply seq_inv in H; destruct H as (x & Hx & H);
  match type of Hx with
  | ?c ?y = _ =>
      assert (K : preserves P c) by untouched;
      specialize (K y Hinv); rewrite Hx in K; cbn [fst] in K
  end;
  clear Hinv Hx; rename K into Hinv.

Lemma force_body_inv X Y Z split s s' :
  (append X (float_at split 2 (remove "(")) ;;
   append Y (float_at split 3 (fun t => t)) ;;
   append Z (float_at split 4 (remove ")"))) s = (s', None) ->
  exists v2 v3 v4,
    float_at split 2 (remove "(") = Ok v2 /\
    float_at split 3 (fun t => t) = Ok v3 /\
    float_at split 4 (remove ")") = Ok v4 /\
    s' = push Z v4 (push Y v3 (push X v2 s)).
Proof.
  intros H.
  cut_first H a1 A1; apply append_inv in A1 as (v2 & V2 & ->).
  cut_first H a2 A2; apply append_inv in A2 as (v3 & V3 & ->).
  apply append_inv in H as (v4 & V4 & ->).
  exists v2, v3, v4; auto.
Qed.

(** X13.  For a line whose tokens contain "Pressure", processed without
    an exception while the pressure-x series lags, the tokens at
    positions 2, 3 and 4 are parsed, with every "(" removed from the
    first and every ")" from the third, and appended to the pressure-x,
    -y and -z series; no other statement of the line writes to them. *)
Theorem Pressure_line s line s' :
  mem "Pressure" (split_ws line) = true ->
  process_line line s = (s', None) ->
  len pressureXResiduals s < niter s' - 1 ->
  exists v2 v3 v4,
    float_at (split_ws line) 2 (remove "(") = Ok v2 /\
    float_at (split_ws line) 3 (fun t => t) = Ok v3 /\
    float_at (split_ws line) 4 (remove ")") = Ok v4 /\
    series s' pressureXResiduals = series s pressureXResiduals ++ [v2] /\
    series s' pressureYResiduals = series s pressureYResiduals ++ [v3] /\
    series s' pressureZResiduals = series s pressureZResiduals ++ [v4].
Proof.
  intros Hm H Hlag.
  pose proof (process_line_niter line s) as Hn; rewrite H in Hn.
  cbn [fst] in Hn; unfold process_line in H.
  cut_first H s1 H1; apply time_check_inv in H1 as [Hs1 Hn1].
  assert (Hinv : same_force pressureXResiduals pressureYResiduals
                   pressureZResiduals s1 s1) by (repeat split).
  do 13 (advance (same_force pressureXResiduals pressureYResiduals
                    pressureZResiduals s1) H Hinv).
  cut_first H y HP.
  keep (same_force pressureXResiduals pressureYResiduals
          pressureZResiduals y) H K.
  destruct K as (KX & KY & KZ & _); [repeat split|].
  destruct Hinv as (IX & IY & IZ & In1).
  apply when_inv in HP; rewrite Hm in HP.
  rewrite lags_true in HP by (unfold len in *; rewrite IX, In1, Hs1; lia).
  cbn [andb] in HP.
  apply force_body_inv in HP as (v2 & v3 & v4 & V2 & V3 & V4 & ->).
  exists v2, v3, v4.
  rewrite KX, KY, KZ, !series_push; cbn [attr_eqb].
  rewrite IX, IY, IZ, !Hs1; repeat split; assumption.
Qed.

(** X14.  For a line whose tokens contain "Viscous", processed without
    an exception while the viscous-x series lags, the tokens at
    positions 2, 3 and 4 are parsed, with every "(" removed from the
    first and every ")" from the third, and appended to the viscous-x,
    -y and -z series; no other statement of the line writes to them. *)
Theorem Viscous_line s line s' :
  mem "Viscous" (split_ws line) = true ->
  process_line line s = (s', None) ->
  len viscousXResiduals s < niter s' - 1 ->
  exists v2 v3 v4,
    float_at (split_ws line) 2 (remove "(") = Ok v2 /\
    float_at (split_ws line) 3 (fun t => t) = Ok v3 /\
    float_at (split_ws line) 4 (remove ")") = Ok v4 /\
    series s' viscousXResiduals = series s viscousXResiduals ++ [v2] /\
    series s' viscousYResiduals = series s viscousYResiduals ++ [v3] /\
    series s' viscousZResiduals = series s viscousZResiduals ++ [v4].
Proof.
  intros Hm H Hlag.
  pose proof (process_line_niter line s) as Hn; rewrite H in Hn.
  cbn [fst] in Hn; unfold process_line in H.
  cut_first H s1 H1; apply time_check_inv in H1 as [Hs1 Hn1].
  assert (Hinv : same_force viscousXResiduals viscousYResiduals
                   viscousZResiduals s1 s1) by (repeat split).
  do 14 (advance (same_force viscousXResiduals viscousYResiduals
                    viscousZResiduals s1) H Hinv).
  cut_first H y HP.
  keep (same_force viscousXResiduals viscousYResiduals
          viscousZResiduals y) H K.
  destruct K as (KX & KY & KZ & _); [repeat split|].
  destruct Hinv as (IX & IY & IZ & In1).
  apply when_inv in HP; rewrite Hm in HP.
  rewrite lags_true in HP by (unfold len in *; rewrite IX, In1, Hs1; lia).
  cbn [andb] in HP.
  apply force_body_inv in HP as (v2 & v3 & v4 & V2 & V3 & V4 & ->).
  exists v2, v3, v4.
  rewrite KX, KY, KZ, !series_push; cbn [attr_eqb].
  rewrite IX, IY, IZ, !Hs1; repeat split; assumption.
Qed.

Lemma process_line_ordered line : preserves ordered (process_line line).
Proof.
  unfold process_line.
  apply preserves_seq.
  { apply preserves_If, preserves_incr_niter; intros s H; exact H. }
  guarded_statements;
    intros s H _; run_body; try exact H;
    unfold ordered in *; rewrite ?len_push; cbn [attr_eqb]; lia.
Qed.

(** X15.  Along every run of calls from a reset object, whether calls
    raised or not, the y and z series of a force monitor are never longer
    than the series before them: len z <= len y <= len x, for the
    pressure and for the viscous force. *)
Theorem force_series_ordered s0 texts :
  ordered (process_outputs texts (get_solver_cmd s0)).
Proof.
  apply process_outputs_preserves.
  - apply process_line_ordered.
  - unfold ordered, len; cbn; lia.
Qed.

Lemma preserves_keeps P c : preserves P c -> keeps P c.
Proof. intros H s s' Hs Hc; specialize (H s Hs); rewrite Hc in H; exact H. Qed.

Lemma keeps_seq P c1 c2 : keeps P c1 -> keeps P c2 -> keeps P (c1 ;; c2).
Proof.
  intros H1 H2 s s' Hs Hc; apply seq_inv in Hc as (x & Hx & Hc).
  eapply H2; [eapply H1|]; eassumption.
Qed.

Lemma force_statement_lockstep split tok X Y Z :
  (forall s v2 v3 v4,
      lockstep s -> lockstep (push Z v4 (push Y v3 (push X v2 s)))) ->
  keeps lockstep
    (when split tok X
       (append X (float_at split 2 (remove "(")) ;;
        append Y (float_at split 3 (fun t => t)) ;;
        append Z (float_at split 4 (remove ")")))).
Proof.
  intros Hp s s' Hs H; apply when_inv in H.
  destruct (mem tok split && lags X s); [|subst s'; exact Hs].
  apply force_body_inv in H as (v2 & v3 & v4 & _ & _ & _ & ->).
  apply Hp, Hs.
Qed.

Lemma process_line_lockstep line : keeps lockstep (process_line line).
Proof.
  unfold process_line.
  apply keeps_seq.
  { apply preserves_keeps, preserves_If, preserves_incr_niter.
    intros s H; exact H. }
  do 13 (apply keeps_seq; [apply preserves_keeps; untouched|]).
  apply keeps_seq; [|apply keeps_seq].
  - apply force_statement_lockstep; intros s v2 v3 v4.
    unfold lockstep; rewrite !len_push; cbn [attr_eqb]; lia.
  - apply force_statement_lockstep; intros s v2 v3 v4.
    unfold lockstep; rewrite !len_push; cbn [attr_eqb]; lia.
  - apply preserves_keeps; untouched.
Qed.

Lemma process_lines_lockstep lines : keeps lockstep (process_lines lines).
Proof.
  induction lines as [|line rest IH]; cbn [process_lines].
  - intros s s' Hs H; injection H as <-; exact Hs.
  - apply keeps_seq; [apply process_line_lockstep | exact IH].
Qed.

(** X16.  A reset object has the three components of each force in step,
    and a call of [process_output] in which no line raises a decode
    failure keeps them in step: the x, y and z series of the pressure
    force have the same length, and so have those of the viscous
    force. *)
Theorem force_series_in_step s0 s text :
  lockstep (get_solver_cmd s0) /\
  (lockstep s ->
   (forall e, snd (process_output text s) = Some e -> e = AttributeError) ->
   lockstep (fst (fst (process_output text s)))).
Proof.
  split; [unfold lockstep, len; cbn; lia|].
  intros Hs He; rewrite process_output_state.
  pose proof (process_lines_decodes (split_sep "010" text) s) as Hd.
  pose proof (process_lines_lockstep (split_sep "010" text) s) as Hk.
  unfold process_output in He.
  destruct (process_lines (split_sep "010" text) s) as [s1 [e|]];
    cbn [fst snd] in *.
  - specialize (He e eq_refl); subst e.
    destruct (not_decode_failure_AttributeError (Hd _ eq_refl)).
  - apply (Hk s1 Hs eq_refl).
Qed.

(** ** A reset forgets the earlier run *)

Lemma same_object_refl s : same_object s s.
Proof. unfold same_object, same_plots; auto 10. Qed.

Lemma respects_seq c1 c2 : respects c1 -> respects c2 -> respects (c1 ;; c2).
Proof.
  intros H1 H2 s x Hsx; unfold seq.
  destruct (H1 s x Hsx) as [Ho He].
  destruct (c1 s) as [s1 [e1|]], (c1 x) as [x1 [e2|]]; cbn [fst snd] in *;
    try discriminate He.
  - split; [exact Ho | exact He].
  - apply H2, Ho.
Qed.

Lemma respects_If b c :
  (forall s x, same_object s x -> b x = b s) ->
  respects c -> respects (If b c).
Proof.
  intros Hb Hc s x Hsx; unfold If; rewrite (Hb s x Hsx).
  destruct (b s); [apply Hc, Hsx | split; [exact Hsx | reflexivity]].
Qed.

Lemma respects_append a e : respects (append a e).
Proof.
  intros s x (Hs & Hn & Hp); unfold append; destruct e as [v|err];
    cbn [fst snd]; split; try reflexivity.
  - split; [|split; [exact Hn | exact Hp]].
    intros b; rewrite !series_push, Hs; reflexivity.
  - split; [exact Hs | split; [exact Hn | exact Hp]].
Qed.

Lemma respects_incr_niter : respects incr_niter.
Proof.
  intros s x (Hs & Hn & Hp); cbn; split; [|reflexivity].
  split; [exact Hs | split; [cbn; rewrite Hn; reflexivity | exact Hp]].
Qed.

Lemma lags_same_object g s x : same_object s x -> lags g x = lags g s.
Proof.
  intros (Hs & Hn & _); unfold lags, len; rewrite Hs, Hn; reflexivity.
Qed.

Lemma process_line_respects line : respects (process_line line).
Proof.
  unfold process_line, when.
  repeat first
    [ apply respects_seq
    | apply respects_If;
      [ intros s x Hsx; rewrite ?(lags_same_object _ s x Hsx); reflexivity | ]
    | apply respects_append
    | apply respects_incr_niter ].
Qed.

Lemma process_lines_respects lines : respects (process_lines lines).
Proof.
  induction lines as [|line rest IH]; cbn [process_lines].
  - intros s x Hsx; split; [exact Hsx | reflexivity].
  - apply respects_seq; [apply process_line_respects | exact IH].
Qed.

Lemma update_plots_same_object s x :
  same_object s x -> update_plots x = update_plots s.
Proof.
  intros (Hs & _ & H1 & H2 & H3 & _).
  unfold update_plots, residual_items, forces_items, force_coeffs_items.
  rewrite H1, H2, H3, !Hs; reflexivity.
Qed.

Lemma process_output_respects text s x :
  same_object s x ->
  same_object (fst (fst (process_output text s)))
              (fst (fst (process_output text x))) /\
  snd (fst (process_output text x)) = snd (fst (process_output text s)) /\
  snd (process_output text x) = snd (process_output text s).
Proof.
  intros Hsx; rewrite !process_output_state.
  destruct (process_lines_respects (split_sep "010" text) s x Hsx) as [Ho He].
  split; [exact Ho|].
  unfold process_output.
  destruct (process_lines (split_sep "010" text) s) as [s1 [e1|]],
    (process_lines (split_sep "010" text) x) as [x1 [e2|]];
    cbn [fst snd] in *; try discriminate He.
  - split; [reflexivity | exact He].
  - destruct Ho as (Hs & Hn & Hp); rewrite Hn.
    rewrite (update_plots_same_object s1 x1) by (split; [|split]; assumption).
    destruct (niter s1 >? 1); [|split; reflexivity].
    destruct (update_plots s1); split; reflexivity.
Qed.

(** X17.  [get_solver_cmd] forgets the earlier run: a chunk processed
    after a reset that follows any run of calls leaves the same series
    and counter, notifies the plots with the same items and raises the
    same exception as that chunk processed after the first reset. *)
Theorem reset_forgets_history s texts text :
  let r1 := process_output text (get_solver_cmd s) in
  let r2 := process_output text
              (get_solver_cmd (process_outputs texts (get_solver_cmd s))) in
  (forall a, series (fst (fst r2)) a = series (fst (fst r1)) a) /\
  niter (fst (fst r2)) = niter (fst (fst r1)) /\
  snd (fst r2) = snd (fst r1) /\
  snd r2 = snd r1.
Proof.
  cbv zeta.
  assert (H : same_object (get_solver_cmd s)
                (get_solver_cmd (process_outputs texts (get_solver_cmd s)))).
  { destruct (process_outputs_same_plots texts (get_solver_cmd s))
      as (_ & P2 & P3 & P4 & P5).
    cbn in P2, P3, P4, P5.
    split; [intros a; destruct a; reflexivity|].
    split; [reflexivity|].
    unfold same_plots; cbn; rewrite P2, P3, P4, P5.
    repeat split;
      destruct (forces_plot s), (force_coeffs_plot s); reflexivity. }
  destruct (process_output_respects text _ _ H) as ((Hs & Hn & _) & He & Hr).
  repeat split; assumption.
Qed.

(** ** The function objects *)

Lemma process_outputs_flags texts s :
  forces_plot (process_outputs texts s) = forces_plot s /\
  force_coeffs_plot (process_outputs texts s) = force_coeffs_plot s.
Proof.
  destruct (process_outputs_same_plots texts s) as (_ & _ & _ & H1 & H2).
  auto.
Qed.

Lemma existsb_eqb_In t l : existsb (String.eqb t) l = true <-> In t l.
Proof.
  rewrite existsb_exists; split.
  - intros (x & Hx & He); apply String.eqb_eq in He; subst x; exact Hx.
  - intros H; exists t; split; [exact H | apply String.eqb_refl].
Qed.

(** X18.  The two flags are fixed when the object is made and no reset
    or chunk changes them: forces are plotted exactly when some function
    object of the analysis has type "Force", force coefficients exactly
    when some has type "ForceCoefficients"; other types, the order and
    repetitions do not matter, and without a group of function objects
    both are off. *)
Theorem flags_follow_function_objects fo texts1 texts2 :
  let s := process_outputs texts2
             (get_solver_cmd (process_outputs texts1 (init fo))) in
  (forces_plot s = true <-> exists l, fo = Some l /\ In "Force" l) /\
  (force_coeffs_plot s = true
   <-> exists l, fo = Some l /\ In "ForceCoefficients" l).
Proof.
  cbv zeta.
  destruct (process_outputs_flags texts2
              (get_solver_cmd (process_outputs texts1 (init fo)))) as [A1 A2].
  destruct (process_outputs_flags texts1 (init fo)) as [B1 B2].
  rewrite A1, A2; cbn [get_solver_cmd forces_plot force_coeffs_plot
                       initMonitors initResiduals set_series set_niter].
  rewrite B1, B2; cbn [init forces_plot force_coeffs_plot
                       initMonitors initResiduals set_series set_niter].
  destruct fo as [l|].
  - rewrite !existsb_eqb_In; split; split.
    + intros H; exists l; auto.
    + intros (l' & Hl & H); injection Hl as ->; exact H.
    + intros H; exists l; auto.
    + intros (l' & Hl & H); injection Hl as ->; exact H.
  - cbn; split; split; try discriminate; intros (l & Hl & _); discriminate Hl.
Qed.

(** ** Catching up within a timestep *)

Lemma attr_eqb_neq a b : a <> b -> attr_eqb a b = false.
Proof. destruct a, b; intros H; try reflexivity; contradiction H; reflexivity. Qed.

(** X19.  Well-formed lines for one of the triggers read at position 7,
    with no timestep marker between them, fill the lag of its series and
    no more: of their values the first [niter - 1 - len] are appended, in
    order (none when the series does not lag), no line raises, and the
    counter and the other series stay as they are. *)
Theorem lines_fill_the_lag tok a lvs :
  In (tok, a) residual_triggers ->
  Forall (fun lv => trigger_line tok (snd lv) (fst lv)) lvs ->
  forall s,
    let r := process_lines (map fst lvs) s in
    snd r = None /\
    niter (fst r) = niter s /\
    series (fst r) a
    = series s a ++ firstn (Z.to_nat (niter s - 1 - len a s)) (map snd lvs) /\
    forall b, b <> a -> series (fst r) b = series s b.
Proof.
  intros Hin Hl; induction Hl as [|[line v] rest (Hs & Hm & Ho & Hv) Hrest IH];
    intros s; cbv zeta.
  - cbn; rewrite firstn_nil, app_nil_r; auto.
  - cbn [map fst snd process_lines] in *; unfold seq.
    rewrite (process_line_residual_trigger tok a line s Hin Hs Hm Ho), Hv.
    unfold lags; destruct (Z.gtb_spec (niter s - 1) (len a s)) as [Hlag|Hlag].
    + cbn [append]; destruct (IH (push a v s)) as (I1 & I2 & I3 & I4).
      split; [exact I1|]; split; [exact I2|]; split.
      * rewrite I3, len_push, niter_push, series_push.
        replace (attr_eqb a a) with true by (destruct a; reflexivity).
        replace (Z.to_nat (niter s - 1 - len a s))
          with (S (Z.to_nat (niter s - 1 - (len a s + 1)))) by lia.
        cbn [firstn]; rewrite <- app_assoc; reflexivity.
      * intros b Hb; rewrite (I4 b Hb), series_push, attr_eqb_neq by exact Hb.
        reflexivity.
    + destruct (IH s) as (I1 & I2 & I3 & I4).
      split; [exact I1|]; split; [exact I2|]; split; [|exact I4].
      rewrite I3.
      replace (Z.to_nat (niter s - 1 - len a s)) with 0%nat by lia.
      reflexivity.
Qed.

(** ** The coupled format alone *)

Lemma coupled_only_absent split :
  coupled_only split = true ->
  mem "Ux," split = false /\ mem "Uy," split = false /\
  mem "Uz," split = false /\ mem "h," split = false.
Proof.
  unfold coupled_only; intros H.
  repeat (apply andb_prop in H; destruct H as [H ?]).
  repeat split; apply negb_true_iff; assumption.
Qed.

Lemma process_line_coupled_in_step line :
  coupled_only (split_ws line) = true ->
  keeps coupled_in_step (process_line line).
Proof.
  intros Hc; apply coupled_only_absent in Hc as (Hx & Hy & Hz & Hh).
  unfold process_line.
  apply keeps_seq.
  { apply preserves_keeps, preserves_If, preserves_incr_niter.
    intros s H; exact H. }
  do 6 (apply keeps_seq; [apply preserves_keeps; untouched|]).
  apply keeps_seq; [|apply preserves_keeps; untouched].
  intros s s' Hs H; apply when_inv in H.
  destruct (mem "Residual:" (split_ws line) && lags rhoResiduals s);
    [|subst s'; exact Hs].
  cut_first H a1 A1; apply append_inv in A1 as (v4 & _ & ->).
  cut_first H a2 A2; apply append_inv in A2 as (v5 & _ & ->).
  cut_first H a3 A3; apply append_inv in A3 as (v6 & _ & ->).
  cut_first H a4 A4; apply append_inv in A4 as (v7 & _ & ->).
  apply append_inv in H as (v8 & _ & ->).
  unfold coupled_in_step in *; rewrite !len_push; cbn [attr_eqb]; lia.
Qed.

Lemma process_lines_coupled_in_step lines :
  Forall (fun line => coupled_only (split_ws line) = true) lines ->
  keeps coupled_in_step (process_lines lines).
Proof.
  induction 1 as [|line rest H1 H2 IH]; cbn [process_lines].
  - intros s s' Hs H; injection H as <-; exact Hs.
  - apply keeps_seq; [apply process_line_coupled_in_step, H1 | exact IH].
Qed.

(** X20.  In a log of the coupled format alone (no line holds "Ux,",
    "Uy,", "Uz," or "h,"), a call in which no line raises a decode
    failure keeps the density, velocity and energy series in step: when
    they have the same length before the call, as after a reset, they
    have the same length after it. *)
Theorem coupled_series_in_step s0 s text :
  coupled_in_step (get_solver_cmd s0) /\
  (Forall (fun line => coupled_only (split_ws line) = true)
          (split_sep "010" text) ->
   coupled_in_step s ->
   (forall e, snd (process_output text s) = Some e -> e = AttributeError) ->
   coupled_in_step (fst (fst (process_output text s)))).
Proof.
  split; [unfold coupled_in_step, len; cbn; lia|].
  intros Hl Hs He; rewrite process_output_state.
  pose proof (process_lines_decodes (split_sep "010" text) s) as Hd.
  pose proof (process_lines_coupled_in_step _ Hl s) as Hk.
  unfold process_output in He.
  destruct (process_lines (split_sep "010" text) s) as [s1 [e|]];
    cbn [fst snd] in *.
  - specialize (He e eq_refl); subst e.
    destruct (not_decode_failure_AttributeError (Hd _ eq_refl)).
  - apply (Hk s1 Hs eq_refl).
Qed.

(** ** The guard of the statements that append one value *)

(** Runs a line that fell through up to the statement for the trigger
    [tok] of [A], and relates the series [A] before and after it. *)
Ltac at_own_statement A s' H Hn :=
  let s1 := fresh "s1" in
  let H1 := fresh "H1" in
  let Hs1 := fresh "Hs1" in
  let Hn1 := fresh "Hn1" in
  let Hinv := fresh "Hinv" in
  let y := fresh "y" in
  let HT := fresh "HT" in
  let K := fresh "K" in
  let Ks := fresh "Ks" in
  let Is := fresh "Is" in
  let In1 := fresh "In1" in
  unfold process_line in H;
  cut_first H s1 H1; apply time_check_inv in H1 as [Hs1 Hn1];
  assert (Hinv : same_at A s1 s1) by (split; reflexivity);
  repeat (advance (same_at A s1) H Hinv);
  first [ cut_first H y HT; keep (same_at A y) H K;
          destruct K as [Ks _]; [split; reflexivity|]; rewrite Ks; clear Ks H
        | rename H into HT ];
  destruct Hinv as [Is In1];
  apply when_inv in HT; unfold lags in HT;
  rewrite <- Z.gtb_ltb;
  match type of HT with
  | context [niter ?x - 1 >? len A ?x] =>
      let E1 := fresh "E1" in
      let E2 := fresh "E2" in
      pose proof (eq_trans Is (Hs1 A)) as E1;
      assert (E2 : niter x = niter s') by lia;
      match goal with
      | |- context [niter ?z - 1 >? len A ?w] =>
          replace (niter z - 1 >? len A w) with (niter x - 1 >? len A x)
            by (unfold len; rewrite E1, E2; reflexivity)
      end;
      match type of HT with
      | if ?c then _ else _ => destruct c
      end;
      [ let v := fresh "v" in
        let Hv := fresh "Hv" in
        apply append_inv in HT as (v & Hv & ->);
        exists v; split; [exact Hv|];
        rewrite series_push; cbn [attr_eqb]; rewrite E1; reflexivity
      | rewrite HT; exact E1 ]
  end.

(** C7 (as amended).  For every statement that appends one value (the
    trigger T among "Ux,", "Uy,", "Uz,", "p,", "p_rgh,", "h,", "k,",
    "epsilon,", "omega,", "nuTilda,", "gammaInt,", "ReThetat,", "Cd",
    "Cl", writing to its series S), on a line that is processed without
    an exception and holds the trigger of no other statement that writes
    to S ("Residual:" for the velocity and energy series, the other of
    "p," and "p_rgh," for the pressure series), a value is appended to S
    exactly when T is among the tokens and the length of S is below
    [niter - 1], and it is the value read for T.  Of two well-formed
    "Ux," lines within one timestep, only the first value is retained
    exactly when the series is one short of [niter - 1] as they arrive;
    a series that lags further retains both, and a series that does not
    lag retains neither. *)
Theorem single_value_append_guard tok a s line s' l1 l2 v1 v2 :
  In (tok, a) single_value_triggers ->
  sole_writer tok a (split_ws line) = true ->
  process_line line s = (s', None) ->
  Ux_line v1 l1 -> Ux_line v2 l2 ->
  (if mem tok (split_ws line) && (len a s <? niter s' - 1)
   then exists v, value_read tok (split_ws line) = Ok v /\
                  series s' a = series s a ++ [v]
   else series s' a = series s a) /\
  snd (process_lines [l1; l2] s) = None /\
  series (fst (process_lines [l1; l2] s)) UxResiduals
  = series s UxResiduals
    ++ (if len UxResiduals s <? niter s - 2 then [v1; v2]
        else if len UxResiduals s =? niter s - 2 then [v1]
        else []).
Proof.
  intros Hin Hsole H Hu1 Hu2; split; [|apply process_lines_two_Ux; assumption].
  pose proof (process_line_niter line s) as Hn; rewrite H in Hn.
  cbn [fst] in Hn.
  unfold single_value_triggers, residual_triggers, coefficient_triggers in Hin.
  cbn [app In] in Hin.
  repeat (destruct Hin as [Hin|Hin]; [injection Hin as <- <-|]);
    try contradiction;
    unfold sole_writer, other_writers in Hsole; cbn in Hsole;
    try (apply andb_prop in Hsole; destruct Hsole as [Hsole _];
         apply negb_true_iff in Hsole);
    match goal with
    | |- context [len ?A s] => at_own_statement A s' H Hn
    end.
Qed.

End Parser.

Arguments series {F} _ _.
Arguments niter {F} _.
Arguments len {F} _ _.
Arguments forces_plot {F} _.
Arguments get_solver_cmd {F} _.
Arguments process_line {F} _ _ _.
Arguments process_lines {F} _ _ _.
Arguments process_output {F} _ _ _.
Arguments process_outputs {F} _ _ _.
Arguments Ux_line {F} _ _ _.
Arguments Ux_round {F} _ _.
Arguments timesteps {F} _.
Arguments blocked {F} _ _.
Arguments extends {F} _ _.
Arguments residual_at_7 {F} _ _.
Arguments float_at {F} _ _ _ _.
Arguments residual_plotter_update {F} _.
Arguments forces_plotter_update {F} _.
Arguments forces_items {F} _.

(** ** The properties on concrete logs *)

(** C1: one timestep marker and one "Ux," line of value 0.5 after a
    reset leave the velocity-x series empty and notify no plot. *)
Lemma first_Ux_is_held_back :
  time_line "Time = 1" /\ Ux_line dec_float (5 # 10) Ux_050 /\
  let r := process_output dec_float (chunk ["Time = 1"; Ux_050])
             (get_solver_cmd (init Q None)) in
  series (fst (fst r)) UxResiduals <> [5 # 10] /\
  forall items, ~ In (residual_plotter_update items) (snd (fst r)).
Proof.
  vm_compute; repeat split; try discriminate; intros items H; exact H.
Qed.

Lemma first_Ux_after_reset_witness :
  let r1 := process_output dec_float (chunk ["Time = 1"; Ux_050])
              (get_solver_cmd (init Q None)) in
  let r2 := process_output dec_float (chunk ["Time = 1"; "Time = 2"; Ux_050])
              (get_solver_cmd (init Q None)) in
  series (fst (fst r1)) UxResiduals = [] /\
  snd (fst r1) = [] /\ snd r1 = None /\
  series (fst (fst r2)) UxResiduals = [5 # 10] /\
  exists items rest,
    snd (fst r2) = residual_plotter_update items :: rest /\
    In ("$U_x$", [5 # 10]) items.
Proof.
  apply (first_Ux_after_reset Q dec_float (init Q None)
           "Time = 1" "Time = 2" Ux_050 (5 # 10));
    vm_compute; repeat split.
Defined.

Lemma no_forces_update_when_disabled_witness :
  let s := get_solver_cmd (init Q None) in
  let text := chunk ["Time = 1"; "Time = 2"; Pressure_forces] in
  let r := process_output dec_float text s in
  forces_plot s = false /\ niter (fst (fst r)) = 2 /\
  series (fst (fst r)) pressureXResiduals = [15 # 10] /\
  ~ In (forces_plotter_update (forces_items (fst (fst r)))) (snd (fst r)).
Proof.
  cbv zeta; do 3 (split; [reflexivity|]).
  apply (no_forces_update_when_disabled Q dec_float).
  - apply reachable_get_solver_cmd, reachable_init.
  - reflexivity.
Defined.

(** C3: the notification that a log of two timesteps produces has 12
    entries, not 11. *)
Lemma residual_update_has_12_entries :
  ~ (forall items,
        In (residual_plotter_update items)
           (snd (fst (process_output dec_float
                        (chunk ["Time = 1"; "Time = 2"; Ux_050])
                        (get_solver_cmd
                           (init Q (Some ["Force"; "ForceCoefficients"]))))))
        -> length items = 11%nat).
Proof.
  intros H.
  specialize (H _ (or_introl eq_refl)).
  vm_compute in H; discriminate H.
Qed.

Lemma residual_update_items_witness :
  let r := process_output dec_float (chunk ["Time = 1"; "Time = 2"; Ux_050])
             (get_solver_cmd (init Q (Some ["Force"; "ForceCoefficients"]))) in
  let items := residual_items Q (fst (fst r)) in
  In (residual_plotter_update items) (snd (fst r)) /\
  length items = 12%nat /\
  map fst items = residual_labels /\
  map snd items
  = map (series (fst (fst r)))
        [ rhoResiduals; UxResiduals; UyResiduals; UzResiduals; pResiduals;
          EResiduals; kResiduals; epsilonResiduals; nuTildaResiduals;
          omegaResiduals; gammaIntResiduals; ReThetatResiduals ].
Proof.
  cbv zeta; split.
  - left; reflexivity.
  - apply (residual_update_items Q dec_float); left; reflexivity.
Defined.

(** C4: after three timestep markers, two "Ux," lines and two
    "Residual:" lines are all appended: the velocity-x series has four
    values while the counter is 3. *)
Lemma series_can_outgrow_counter :
  let s := process_outputs dec_float
             [chunk ["Time = 1"; "Time = 2"; "Time = 3"; Ux_050; Ux_025;
                     Residual_coupled; Residual_coupled]]
             (get_solver_cmd (init Q (Some ["Force"; "ForceCoefficients"]))) in
  niter s = 3 /\
  series s UxResiduals = [5 # 10; 25 # 100; 2 # 10; 2 # 10] /\
  ~ (len UxResiduals s <= niter s).
Proof.
  cbv zeta; split; [reflexivity|]; split; [reflexivity|].
  vm_compute; intros H; apply H; reflexivity.
Qed.

Lemma series_length_bounds_witness :
  let s := process_outputs dec_float
             [chunk ["Time = 1"; "Time = 2"; p_and_p_rgh_050]]
             (get_solver_cmd (init Q (Some ["Force"; "ForceCoefficients"]))) in
  len pResiduals s <= Z.max (niter s - 1) 0 /\
  len pResiduals s <= niter s /\
  forall line,
    startswith "Time = " line = false ->
    niter s - 1 <= len pResiduals s ->
    series (fst (process_line dec_float line s)) pResiduals
    = series s pResiduals.
Proof.
  exact (series_length_bounds Q dec_float
           (init Q (Some ["Force"; "ForceCoefficients"]))
           [chunk ["Time = 1"; "Time = 2"; p_and_p_rgh_050]] pResiduals).
Defined.

(** C5: two timesteps with one "Ux," line each leave one value, the
    second, in the velocity-x series. *)
Lemma Ux_of_two_timesteps :
  let rounds := [("Time = 1", Ux_050, 5 # 10); ("Time = 2", Ux_025, 25 # 100)] in
  let s := fst (fst (process_output dec_float (chunk (timesteps rounds))
                       (get_solver_cmd (init Q None)))) in
  Forall (Ux_round dec_float) rounds /\
  series s UxResiduals = [25 # 100] /\
  length (series s UxResiduals) <> 2%nat.
Proof.
  cbv zeta; split; [|split].
  - repeat constructor.
  - reflexivity.
  - vm_compute; discriminate.
Qed.

Lemma Ux_across_timesteps_witness :
  let rounds := [("Time = 1", Ux_050, 5 # 10); ("Time = 2", Ux_025, 25 # 100)] in
  let s := fst (fst (process_output dec_float (chunk (timesteps rounds))
                       (get_solver_cmd (init Q None)))) in
  series s UxResiduals = tl (map snd rounds) /\
  length (series s UxResiduals) = (length rounds - 1)%nat /\
  niter s = Z.of_nat (length rounds).
Proof.
  apply (Ux_across_timesteps Q dec_float).
  - repeat constructor.
  - reflexivity.
Defined.

(** C6: a chunk without a timestep marker appends to a series that lags
    behind the counter. *)
Lemma chunk_without_marker_can_append :
  let s := fst (fst (process_output dec_float (chunk ["Time = 1"; "Time = 2"])
                       (get_solver_cmd (init Q None)))) in
  let s' := fst (fst (process_output dec_float Ux_050 s)) in
  Forall (fun line => startswith "Time = " line = false)
         (split_sep "010" Ux_050) /\
  series s UxResiduals = [] /\
  series s' UxResiduals = [5 # 10] /\
  ~ (forall a, series s' a = series s a).
Proof.
  cbv zeta; split; [repeat constructor|].
  split; [reflexivity|]; split; [reflexivity|].
  intros H; specialize (H UxResiduals); vm_compute in H; discriminate H.
Qed.

Lemma no_time_line_frame_witness :
  let s := fst (fst (process_output dec_float
                       (chunk ["Time = 1"; "Time = 2"; p_and_p_rgh_050])
                       (get_solver_cmd (init Q None)))) in
  let text := chunk [p_and_p_rgh_050; Ux_050] in
  let s' := fst (fst (process_output dec_float text s)) in
  blocked pResiduals s /\
  niter s' = niter s /\
  forall a, blocked a s -> series s' a = series s a.
Proof.
  cbv zeta; split.
  - vm_compute; split; intros H; discriminate H.
  - apply (no_time_line_frame Q dec_float); repeat constructor.
Defined.

(** C7: after three timestep markers without residuals, two "Ux," lines
    of the same timestep are both retained. *)
Lemma two_Ux_lines_both_retained :
  let s := fst (fst (process_output dec_float
                       (chunk ["Time = 1"; "Time = 2"; "Time = 3";
                               Ux_050; Ux_025])
                       (get_solver_cmd (init Q None)))) in
  Ux_line dec_float (5 # 10) Ux_050 /\
  Ux_line dec_float (25 # 100) Ux_025 /\
  series s UxResiduals = [5 # 10; 25 # 100] /\
  series s UxResiduals <> [5 # 10].
Proof.
  cbv zeta; split; [vm_compute; repeat split|].
  split; [vm_compute; repeat split|].
  split; [reflexivity | vm_compute; discriminate].
Qed.

(** Why the other writers of a series are set aside: a "Residual:" line
    appends to the velocity-x series though "Ux," is not among its
    tokens, and a "p_rgh," line appends to the pressure series though
    "p," is not among its tokens. *)
Lemma other_writers_append :
  let s := fst (process_lines dec_float ["Time = 1"; "Time = 2"]
                  (get_solver_cmd (init Q None))) in
  mem "Ux," (split_ws Residual_coupled) = false /\
  series (fst (process_line dec_float Residual_coupled s)) UxResiduals
  = series s UxResiduals ++ [2 # 10] /\
  mem "p," (split_ws p_rgh_050) = false /\
  series (fst (process_line dec_float p_rgh_050 s)) pResiduals
  = series s pResiduals ++ [5 # 10].
Proof. cbv zeta; repeat split; reflexivity. Qed.

Lemma single_value_append_guard_witness :
  let s := fst (process_lines dec_float ["Time = 1"; "Time = 2"]
                  (get_solver_cmd (init Q None))) in
  let s' := fst (process_line dec_float k_050 s) in
  (if mem "k," (split_ws k_050) && (len kResiduals s <? niter s' - 1)
   then exists v, value_read Q dec_float "k," (split_ws k_050) = Ok v /\
                  series s' kResiduals = series s kResiduals ++ [v]
   else series s' kResiduals = series s kResiduals) /\
  snd (process_lines dec_float [Ux_050; Ux_025] s) = None /\
  series (fst (process_lines dec_float [Ux_050; Ux_025] s)) UxResiduals
  = series s UxResiduals
    ++ (if len UxResiduals s <? niter s - 2 then [5 # 10; 25 # 100]
        else if len UxResiduals s =? niter s - 2 then [5 # 10]
        else []).
Proof.
  apply (single_value_append_guard Q dec_float "k," kResiduals);
    vm_compute; auto 20.
Defined.

Lemma Cd_decode_failure_witness :
  let s := get_solver_cmd (init Q None) in
  let text := chunk ["Time = 1"; "Time = 2"; Cl_030; Cd_not_a_number] in
  let s1 := fst (process_lines dec_float ["Time = 1"; "Time = 2"; Cl_030] s) in
  let s' := fst (fst (process_output dec_float text s)) in
  series s1 clResiduals = [3 # 10] /\
  exists e,
    snd (process_output dec_float text s) = Some e /\
    decode_failure e /\
    snd (fst (process_output dec_float text s)) = [] /\
    series s' clResiduals = series s1 clResiduals /\
    extends s1 s' /\
    (quiet_before_Cd (split_ws Cd_not_a_number) = true ->
     e = ValueError /\ forall a, series s' a = series s1 a).
Proof.
  cbv zeta; split; [reflexivity|].
  apply (Cd_decode_failure Q dec_float _ _
           ["Time = 1"; "Time = 2"; Cl_030] Cd_not_a_number [] _ "abc");
    vm_compute; reflexivity.
Defined.

Lemma coupled_residuals_witness :
  let s := fst (process_lines dec_float ["Time = 1"; "Time = 2"]
                  (get_solver_cmd (init Q None))) in
  let line := Residual_coupled in
  let s' := fst (process_line dec_float line s) in
  exists v4 v5 v6 v7 v8 ux uy uz e,
    float_at dec_float (split_ws line) 4 (fun t => t) = Ok v4 /\
    float_at dec_float (split_ws line) 5 (lstrip "(") = Ok v5 /\
    float_at dec_float (split_ws line) 6 (fun t => t) = Ok v6 /\
    float_at dec_float (split_ws line) 7 (rstrip ")") = Ok v7 /\
    float_at dec_float (split_ws line) 8 (fun t => t) = Ok v8 /\
    series s' rhoResiduals = series s rhoResiduals ++ [v4] /\
    series s' UxResiduals = (series s UxResiduals ++ ux) ++ [v5] /\
    series s' UyResiduals = (series s UyResiduals ++ uy) ++ [v6] /\
    series s' UzResiduals = (series s UzResiduals ++ uz) ++ [v7] /\
    series s' EResiduals = (series s EResiduals ++ e) ++ [v8] /\
    (mem "Ux," (split_ws line) = false -> ux = []) /\
    (mem "Uy," (split_ws line) = false -> uy = []) /\
    (mem "Uz," (split_ws line) = false -> uz = []) /\
    (mem "h," (split_ws line) = false -> e = []).
Proof.
  apply (coupled_residuals Q dec_float); vm_compute; reflexivity.
Defined.

(** C10: after three timestep markers without residuals, one line with
    both "p," and "p_rgh," appends its value twice. *)
Lemma p_and_p_rgh_append_twice :
  let s := fst (process_lines dec_float ["Time = 1"; "Time = 2"; "Time = 3"]
                  (get_solver_cmd (init Q None))) in
  let s' := fst (process_line dec_float p_and_p_rgh_050 s) in
  mem "p," (split_ws p_and_p_rgh_050) = true /\
  mem "p_rgh," (split_ws p_and_p_rgh_050) = true /\
  series s pResiduals = [] /\
  series s' pResiduals = [5 # 10; 5 # 10] /\
  ~ (length (series s' pResiduals) <= length (series s pResiduals) + 1)%nat.
Proof.
  cbv zeta; do 4 (split; [reflexivity|]).
  vm_compute; intros H; inversion H as [|n H1]; inversion H1.
Qed.

Lemma pressure_two_triggers_witness :
  let s := fst (process_lines dec_float ["Time = 1"; "Time = 2"; "Time = 3"]
                  (get_solver_cmd (init Q None))) in
  let line := p_and_p_rgh_050 in
  let s' := fst (process_line dec_float line s) in
  let d := niter s' - 1 - len pResiduals s in
  if d <=? 0 then series s' pResiduals = series s pResiduals
  else exists v,
      residual_at_7 dec_float (split_ws line) = Ok v /\
      series s' pResiduals
      = series s pResiduals ++ (if d =? 1 then [v] else [v; v]).
Proof.
  apply (pressure_two_triggers Q dec_float); vm_compute; reflexivity.
Defined.

(** ** The further properties on concrete logs *)

Arguments all_updates {F} _.
Arguments residual_items {F} _.
Arguments lockstep {F} _.
Arguments coupled_in_step {F} _.
Arguments trigger_line {F} _ _ _ _.
Arguments append {F} _ _ _.
Arguments lags {F} _ _.

Lemma failing_line_ends_the_call_witness :
  let s := get_solver_cmd (init Q None) in
  let pre := ["Time = 1"; "Time = 2"; Cl_030] in
  let s1 := fst (process_lines dec_float pre s) in
  let s2 := fst (process_line dec_float Cd_not_a_number s1) in
  series s2 UxResiduals = [] /\
  process_output dec_float (chunk (pre ++ Cd_not_a_number :: [Ux_050])) s
  = (s2, [], Some ValueError).
Proof.
  cbv zeta; split; [reflexivity|].
  apply (failing_line_ends_the_call Q dec_float _ _
           ["Time = 1"; "Time = 2"; Cl_030] Cd_not_a_number [Ux_050]
           (fst (process_lines dec_float ["Time = 1"; "Time = 2"; Cl_030]
                   (get_solver_cmd (init Q None)))));
    vm_compute; reflexivity.
Defined.

Lemma quiet_line_is_ignored_witness :
  process_output dec_float (chunk ["Time = 1"; ""; "Time = 2"; Ux_050])
    (get_solver_cmd (init Q None))
  = process_output dec_float (chunk ["Time = 1"; "Time = 2"; Ux_050])
      (get_solver_cmd (init Q None)).
Proof.
  apply (quiet_line_is_ignored Q dec_float _ _ _
           ["Time = 1"] "" ["Time = 2"; Ux_050]); reflexivity.
Defined.

Lemma process_output_at_line_end_witness :
  let s := get_solver_cmd (init Q None) in
  let a := chunk ["Time = 1"; "Time = 2"] in
  let s1 := fst (process_lines dec_float (split_sep "010" a) s) in
  fst (fst (process_output dec_float a s)) = s1 /\
  process_output dec_float (a ++ String "010" Ux_050)%string s
  = process_output dec_float Ux_050 s1.
Proof.
  apply (process_output_at_line_end Q dec_float); vm_compute; reflexivity.
Defined.

Lemma updates_follow_function_objects_witness :
  let s0 := init Q (Some ["ForceCoefficients"]) in
  let text := chunk ["Time = 1"; "Time = 2"; Ux_050] in
  let s1 := fst (process_lines dec_float (split_sep "010" text)
                   (get_solver_cmd s0)) in
  process_output dec_float text (get_solver_cmd s0)
  = (s1, [residual_plotter_update (residual_items s1)], Some AttributeError).
Proof.
  refine (updates_follow_function_objects Q dec_float
            (init Q (Some ["ForceCoefficients"])) []
            (chunk ["Time = 1"; "Time = 2"; Ux_050]) _ _ _ _).
  - apply reachable_init.
  - vm_compute; reflexivity.
  - reflexivity.
Defined.

Lemma update_before_get_solver_cmd_witness :
  let text := chunk ["Time = 1"; "Time = 2"; Ux_050] in
  let s1 := fst (process_lines dec_float (split_sep "010" text) (init Q None)) in
  series s1 UxResiduals = [5 # 10] /\
  process_output dec_float text (init Q None) = (s1, [], Some AttributeError).
Proof.
  cbv zeta; split; [reflexivity|].
  refine (update_before_get_solver_cmd Q dec_float None []
            (chunk ["Time = 1"; "Time = 2"; Ux_050]) _ _ _).
  - vm_compute; reflexivity.
  - reflexivity.
Defined.

Lemma first_timestep_only_counts_witness :
  let s := get_solver_cmd (init Q None) in
  let text := chunk ["Time = 1"; Cd_not_a_number; "Ux,"; Ux_050] in
  let r := process_output dec_float text s in
  snd r = None /\ snd (fst r) = [] /\
  niter (fst (fst r)) = niter s + count_markers (split_sep "010" text) /\
  forall a, series (fst (fst r)) a = series s a.
Proof.
  apply (first_timestep_only_counts Q dec_float); vm_compute; discriminate.
Defined.

Lemma long_line_no_IndexError_witness :
  snd (process_line dec_float Ux_050
         (fst (process_lines dec_float ["Time = 1"; "Time = 2"]
                 (get_solver_cmd (init Q None)))))
  <> Some IndexError.
Proof.
  apply (long_line_no_IndexError Q dec_float); vm_compute.
  repeat constructor.
Defined.

Lemma residual_trigger_line_witness :
  let s := fst (process_lines dec_float ["Time = 1"; "Time = 2"]
                  (get_solver_cmd (init Q None))) in
  process_line dec_float p_rgh_050 s
  = if lags pResiduals s
    then append pResiduals (residual_at_7 dec_float (split_ws p_rgh_050)) s
    else (s, None).
Proof.
  apply (residual_trigger_line Q dec_float "p_rgh," pResiduals);
    vm_compute; auto 10.
Defined.

Lemma coefficient_trigger_line_witness :
  let s := fst (process_lines dec_float ["Time = 1"; "Time = 2"]
                  (get_solver_cmd (init Q None))) in
  process_line dec_float Cl_030 s
  = if lags clResiduals s
    then append clResiduals
           (float_at dec_float (split_ws Cl_030) 2 (fun t => t)) s
    else (s, None).
Proof.
  apply (coefficient_trigger_line Q dec_float "Cl" clResiduals);
    vm_compute; auto 10.
Defined.

Lemma Pressure_line_witness :
  let s := fst (process_lines dec_float ["Time = 1"; "Time = 2"]
                  (get_solver_cmd (init Q None))) in
  let line := Pressure_forces in
  let s' := fst (process_line dec_float line s) in
  exists v2 v3 v4,
    float_at dec_float (split_ws line) 2 (remove "(") = Ok v2 /\
    float_at dec_float (split_ws line) 3 (fun t => t) = Ok v3 /\
    float_at dec_float (split_ws line) 4 (remove ")") = Ok v4 /\
    series s' pressureXResiduals = series s pressureXResiduals ++ [v2] /\
    series s' pressureYResiduals = series s pressureYResiduals ++ [v3] /\
    series s' pressureZResiduals = series s pressureZResiduals ++ [v4].
Proof.
  apply (Pressure_line Q dec_float); vm_compute; reflexivity.
Defined.

Lemma Viscous_line_witness :
  let s := fst (process_lines dec_float ["Time = 1"; "Time = 2"]
                  (get_solver_cmd (init Q None))) in
  let line := Viscous_forces in
  let s' := fst (process_line dec_float line s) in
  exists v2 v3 v4,
    float_at dec_float (split_ws line) 2 (remove "(") = Ok v2 /\
    float_at dec_float (split_ws line) 3 (fun t => t) = Ok v3 /\
    float_at dec_float (split_ws line) 4 (remove ")") = Ok v4 /\
    series s' viscousXResiduals = series s viscousXResiduals ++ [v2] /\
    series s' viscousYResiduals = series s viscousYResiduals ++ [v3] /\
    series s' viscousZResiduals = series s viscousZResiduals ++ [v4].
Proof.
  apply (Viscous_line Q dec_float); vm_compute; reflexivity.
Defined.

Lemma force_series_in_step_witness :
  let s := fst (process_lines dec_float ["Time = 1"; "Time = 2"]
                  (get_solver_cmd
                     (init Q (Some ["Force"; "ForceCoefficients"])))) in
  let text := chunk [Pressure_forces; Viscous_forces] in
  series (fst (fst (process_output dec_float text s))) pressureZResiduals
  = [35 # 10] /\
  lockstep (fst (fst (process_output dec_float text s))).
Proof.
  cbv zeta; split; [reflexivity|].
  apply (proj2 (force_series_in_step Q dec_float
                  (init Q None) _ _)).
  - vm_compute; repeat split.
  - intros e H; vm_compute in H; discriminate H.
Defined.

Lemma lines_fill_the_lag_witness :
  let s := fst (process_lines dec_float ["Time = 1"; "Time = 2"]
                  (get_solver_cmd (init Q None))) in
  let lvs := [(Ux_050, 5 # 10); (Ux_025, 25 # 100)] in
  let r := process_lines dec_float (map fst lvs) s in
  snd r = None /\
  niter (fst r) = niter s /\
  series (fst r) UxResiduals
  = series s UxResiduals
    ++ firstn (Z.to_nat (niter s - 1 - len UxResiduals s)) (map snd lvs) /\
  forall b, b <> UxResiduals -> series (fst r) b = series s b.
Proof.
  apply (lines_fill_the_lag Q dec_float "Ux," UxResiduals
           [(Ux_050, 5 # 10); (Ux_025, 25 # 100)]).
  - vm_compute; auto.
  - repeat constructor.
Defined.

Lemma coupled_series_in_step_witness :
  let s := fst (process_lines dec_float ["Time = 1"; "Time = 2"]
                  (get_solver_cmd
                     (init Q (Some ["Force"; "ForceCoefficients"])))) in
  let text := chunk [Residual_coupled] in
  series (fst (fst (process_output dec_float text s))) EResiduals = [5 # 10] /\
  coupled_in_step (fst (fst (process_output dec_float text s))).
Proof.
  cbv zeta; split; [reflexivity|].
  apply (proj2 (coupled_series_in_step Q dec_float (init Q None) _ _)).
  - repeat constructor.
  - vm_compute; repeat split.
  - intros e H; vm_compute in H; discriminate H.
Defined.
